(** * Payments reconciliation core of BrainiHi-CBT-Website

    A shallow embedding of [payments.entity.ts] and of the latest
    [payments.service.ts] (PaymentsService), followed by the properties
    of the ledger that the specification states.

    Conventions of the embedding
    - timestamps ([Date], ISO strings) are epoch milliseconds in [Z];
      an absent or unparsable date is [None];
    - amounts (numeric(12,2) in the table, [Number] in the service) are
      an exact number of cents in [Z];
    - [null]/[undefined] are [None]; the nullish operator of JavaScript
      is [Js.nullish], written [a ?? b] (and [a ??! d] when the last
      operand is not null), and truthiness of a string is [Js.truthy];
    - a thrown exception is [Throw e]; every operation returns the store
      it leaves behind together with its result;
    - the PayPal client and the calendar are parameters ([Env]). *)

From stdpp Require Import base option list strings gmap.
From Stdlib Require Import ZArith Ascii String Lia.

Local Open Scope Z_scope.
Local Open Scope string_scope.

(** ** JavaScript values *)

Module Js.

Definition nullish {A} (a b : option A) : option A :=
  match a with Some x => Some x | None => b end.

Definition nullish_def {A} (a : option A) (d : A) : A :=
  match a with Some x => x | None => d end.

(** [!!s] on a string: the empty string is the only falsy one. *)
Definition truthy (s : string) : bool := negb (bool_decide (s = "")).

(** [!!s] on a possibly null string. *)
Definition truthy_opt (s : option string) : bool :=
  match s with Some x => truthy x | None => false end.

(** [a || b] on possibly null strings. *)
Definition or_else (a b : option string) : option string :=
  if truthy_opt a then a else b.

Definition lower_ascii (c : ascii) : ascii :=
  let n := N_of_ascii c in
  if ((65 <=? n) && (n <=? 90))%N then ascii_of_N (n + 32) else c.

Definition upper_ascii (c : ascii) : ascii :=
  let n := N_of_ascii c in
  if ((97 <=? n) && (n <=? 122))%N then ascii_of_N (n - 32) else c.

Fixpoint map_string (f : ascii -> ascii) (s : string) : string :=
  match s with
  | EmptyString => EmptyString
  | String c s' => String (f c) (map_string f s')
  end.

Definition toLowerCase : string -> string := map_string lower_ascii.
Definition toUpperCase : string -> string := map_string upper_ascii.

Definition is_space (c : ascii) : bool :=
  let n := N_of_ascii c in
  ((9 <=? n) && (n <=? 13) || (n =? 32))%N.

(** [String(s).trim() === ""]. *)
Fixpoint blank (s : string) : bool :=
  match s with
  | EmptyString => true
  | String c s' => is_space c && blank s'
  end.

(** [d.setSeconds(0, 0)]: the start of the minute of [t]. *)
Definition setSeconds00 (t : Z) : Z := t - t mod 60000.

(** [d.setDate(d.getDate() + 30)]. *)
Definition plus30days (t : Z) : Z := t + 30 * 86400000.

End Js.

Notation "a ?? b" := (Js.nullish a b) (at level 61, left associativity).
Notation "a ??! d" := (Js.nullish_def a d) (at level 61, left associativity).

(** ** Errors and results *)

Inductive Error :=
| BadRequestException (msg : string)
| NotFoundException (msg : string)
| ForbiddenException (msg : string)
| HttpException500 (msg : string)
| QueryFailedError (code : string)
| GatewayError
| PlainError (msg : string).

Inductive Result (A : Type) :=
| Ok (a : A)
| Throw (e : Error).
Arguments Ok {A} a.
Arguments Throw {A} e.

(** SQLSTATE of a unique violation, as named in [createPendingPayment]. *)
Definition pgUniqueViolationCode : string := "23505".
(** SQLSTATE raised when [ON CONFLICT (col)] names no unique index. *)
Definition pgNoArbiterIndexCode : string := "42P10".

(** ** Gateway and webhook payloads *)

Record Capture := {
  cap_id : option string;
  cap_status : option string;
  cap_amount_value : option Z;
  cap_currency_code : option string;
  cap_create_time : option Z }.

Record PurchaseUnit := {
  pu_reference_id : option string;
  pu_invoice_id : option string;
  pu_amount_value : option Z;
  pu_currency_code : option string;
  pu_captures : option (list Capture) }.

Record Payer := {
  email_address : option string;
  given_name : option string;
  surname : option string }.

Record Order := {
  o_status : option string;
  o_create_time : option Z;
  o_update_time : option Z;
  o_amount_value : option Z;
  o_payer : option Payer;
  o_purchase_units : option (list PurchaseUnit);
  o_meta_client_temp_id : option string;
  o_raw_meta_client_temp_id : option string }.

Record Resource := {
  r_related_order_id : option string;   (* supplementary_data.related_ids.order_id *)
  r_order_id : option string;
  r_id : option string;
  r_status : option string;
  r_amount_value : option Z }.

Record Event := {
  event_type : option string;
  e_type : option string;
  resource : option Resource }.

Definition emptyResource : Resource :=
  {| r_related_order_id := None; r_order_id := None; r_id := None;
     r_status := None; r_amount_value := None |}.

(** The [__meta] bag the service writes into [raw]. *)
Record Meta := {
  m_reason : option string;
  m_change_to : option string;
  m_client_temp_id : option string;
  m_createdAt : option Z }.

(** The [raw] jsonb column. *)
Inductive Raw :=
| RawNull
| RawMeta (m : Meta)
| RawOrder (o : Order)
| RawEvent (e : Event).

(** ** payments.entity.ts *)

Record Payment := {
  id : Z;
  user_id : option Z;
  plan : option string;
  billingPeriod : option string;
  amount : Z;
  currency : string;
  paypalOrderId : option string;
  paypalCaptureId : option string;
  status : string;
  payerEmail : option string;
  payerName : option string;
  clientTempId : option string;
  raw : Raw;
  createdAtMinute : option Z;
  createdAt : Z;
  updatedAt : Z }.

Record User := {
  u_plan : option string;
  u_plan_expiry : option Z }.

(** The PayPal client ([paypal.client.ts]) and the calendar step of
    [setFullYear(getFullYear() + 1)]; [None] is a thrown error. *)
Record Env := {
  captureOrderOnPayPal : string -> option Order;
  getOrderOnPayPal : string -> option Order;
  plusOneYear : Z -> Z }.

Definition pendingStatuses : list string :=
  ["pending"; "created"; "pending_capture"; "authorized"].
Definition finalStatuses : list string :=
  ["completed"; "captured"; "succeeded"; "paid"].
Definition allowedStatuses : list string :=
  ["completed"; "captured"; "succeeded"; "success"; "paid"].
Definition captureEventTypes : list string :=
  ["CHECKOUT.ORDER.APPROVED"; "PAYMENT.CAPTURE.COMPLETED";
   "PAYMENT.CAPTURE.DENIED"; "PAYMENT.CAPTURE.PENDING"].

Definition isPending (p : Payment) : bool := bool_decide (status p ∈ pendingStatuses).

(** Field updates on a row (assignments [p.field = v] before [save]). *)
Definition set_id (v : Z) (p : Payment) : Payment :=
  {| id := v; user_id := user_id p; plan := plan p; billingPeriod := billingPeriod p;
     amount := amount p; currency := currency p; paypalOrderId := paypalOrderId p;
     paypalCaptureId := paypalCaptureId p; status := status p; payerEmail := payerEmail p;
     payerName := payerName p; clientTempId := clientTempId p; raw := raw p;
     createdAtMinute := createdAtMinute p; createdAt := createdAt p; updatedAt := updatedAt p |}.
Definition set_amount (v : Z) (p : Payment) : Payment :=
  {| id := id p; user_id := user_id p; plan := plan p; billingPeriod := billingPeriod p;
     amount := v; currency := currency p; paypalOrderId := paypalOrderId p;
     paypalCaptureId := paypalCaptureId p; status := status p; payerEmail := payerEmail p;
     payerName := payerName p; clientTempId := clientTempId p; raw := raw p;
     createdAtMinute := createdAtMinute p; createdAt := createdAt p; updatedAt := updatedAt p |}.
Definition set_currency (v : string) (p : Payment) : Payment :=
  {| id := id p; user_id := user_id p; plan := plan p; billingPeriod := billingPeriod p;
     amount := amount p; currency := v; paypalOrderId := paypalOrderId p;
     paypalCaptureId := paypalCaptureId p; status := status p; payerEmail := payerEmail p;
     payerName := payerName p; clientTempId := clientTempId p; raw := raw p;
     createdAtMinute := createdAtMinute p; createdAt := createdAt p; updatedAt := updatedAt p |}.
Definition set_paypalOrderId (v : option string) (p : Payment) : Payment :=
  {| id := id p; user_id := user_id p; plan := plan p; billingPeriod := billingPeriod p;
     amount := amount p; currency := currency p; paypalOrderId := v;
     paypalCaptureId := paypalCaptureId p; status := status p; payerEmail := payerEmail p;
     payerName := payerName p; clientTempId := clientTempId p; raw := raw p;
     createdAtMinute := createdAtMinute p; createdAt := createdAt p; updatedAt := updatedAt p |}.
Definition set_paypalCaptureId (v : option string) (p : Payment) : Payment :=
  {| id := id p; user_id := user_id p; plan := plan p; billingPeriod := billingPeriod p;
     amount := amount p; currency := currency p; paypalOrderId := paypalOrderId p;
     paypalCaptureId := v; status := status p; payerEmail := payerEmail p;
     payerName := payerName p; clientTempId := clientTempId p; raw := raw p;
     createdAtMinute := createdAtMinute p; createdAt := createdAt p; updatedAt := updatedAt p |}.
Definition set_status (v : string) (p : Payment) : Payment :=
  {| id := id p; user_id := user_id p; plan := plan p; billingPeriod := billingPeriod p;
     amount := amount p; currency := currency p; paypalOrderId := paypalOrderId p;
     paypalCaptureId := paypalCaptureId p; status := v; payerEmail := payerEmail p;
     payerName := payerName p; clientTempId := clientTempId p; raw := raw p;
     createdAtMinute := createdAtMinute p; createdAt := createdAt p; updatedAt := updatedAt p |}.
Definition set_payerEmail (v : option string) (p : Payment) : Payment :=
  {| id := id p; user_id := user_id p; plan := plan p; billingPeriod := billingPeriod p;
     amount := amount p; currency := currency p; paypalOrderId := paypalOrderId p;
     paypalCaptureId := paypalCaptureId p; status := status p; payerEmail := v;
     payerName := payerName p; clientTempId := clientTempId p; raw := raw p;
     createdAtMinute := createdAtMinute p; createdAt := createdAt p; updatedAt := updatedAt p |}.
Definition set_payerName (v : option string) (p : Payment) : Payment :=
  {| id := id p; user_id := user_id p; plan := plan p; billingPeriod := billingPeriod p;
     amount := amount p; currency := currency p; paypalOrderId := paypalOrderId p;
     paypalCaptureId := paypalCaptureId p; status := status p; payerEmail := payerEmail p;
     payerName := v; clientTempId := clientTempId p; raw := raw p;
     createdAtMinute := createdAtMinute p; createdAt := createdAt p; updatedAt := updatedAt p |}.
Definition set_raw (v : Raw) (p : Payment) : Payment :=
  {| id := id p; user_id := user_id p; plan := plan p; billingPeriod := billingPeriod p;
     amount := amount p; currency := currency p; paypalOrderId := paypalOrderId p;
     paypalCaptureId := paypalCaptureId p; status := status p; payerEmail := payerEmail p;
     payerName := payerName p; clientTempId := clientTempId p; raw := v;
     createdAtMinute := createdAtMinute p; createdAt := createdAt p; updatedAt := updatedAt p |}.
Definition set_createdAt (v : Z) (p : Payment) : Payment :=
  {| id := id p; user_id := user_id p; plan := plan p; billingPeriod := billingPeriod p;
     amount := amount p; currency := currency p; paypalOrderId := paypalOrderId p;
     paypalCaptureId := paypalCaptureId p; status := status p; payerEmail := payerEmail p;
     payerName := payerName p; clientTempId := clientTempId p; raw := raw p;
     createdAtMinute := createdAtMinute p; createdAt := v; updatedAt := updatedAt p |}.
Definition set_createdAtMinute (v : option Z) (p : Payment) : Payment :=
  {| id := id p; user_id := user_id p; plan := plan p; billingPeriod := billingPeriod p;
     amount := amount p; currency := currency p; paypalOrderId := paypalOrderId p;
     paypalCaptureId := paypalCaptureId p; status := status p; payerEmail := payerEmail p;
     payerName := payerName p; clientTempId := clientTempId p; raw := raw p;
     createdAtMinute := v; createdAt := createdAt p; updatedAt := updatedAt p |}.
Definition set_updatedAt (v : Z) (p : Payment) : Payment :=
  {| id := id p; user_id := user_id p; plan := plan p; billingPeriod := billingPeriod p;
     amount := amount p; currency := currency p; paypalOrderId := paypalOrderId p;
     paypalCaptureId := paypalCaptureId p; status := status p; payerEmail := payerEmail p;
     payerName := payerName p; clientTempId := clientTempId p; raw := raw p;
     createdAtMinute := createdAtMinute p; createdAt := createdAt p; updatedAt := v |}.

(** ** The ledger store: the [payments] table with its indexes

    The table is PostgreSQL (the service uses [$1] placeholders,
    [::jsonb] casts and SQLSTATE 23505).  A unique index never reports
    a conflict on a key with a NULL column, so rows without an order id,
    or without an owner, do not collide with each other. *)

Record Store := {
  rows : list Payment;
  next_id : Z }.

(** [@Index('ux_payments_client_temp_id', ['clientTempId'], { unique: false })] *)
Definition ux_payments_client_temp_id_unique : bool := false.

(** Key of [ux_payments_user_plan_minute]; [None] when a column is NULL. *)
Definition key_user_plan_minute (p : Payment) : option (Z * string * string * Z) :=
  match user_id p, plan p, billingPeriod p, createdAtMinute p with
  | Some u, Some pl, Some b, Some m => Some (u, pl, b, m)
  | _, _, _, _ => None
  end.

Definition same_key {K} `{EqDecision K} (a b : option K) : bool :=
  match a, b with
  | Some x, Some y => bool_decide (x = y)
  | _, _ => false
  end.

(** Row [p] cannot coexist with row [q] under the three unique indexes. *)
Definition conflicts (p q : Payment) : bool :=
  same_key (paypalOrderId p) (paypalOrderId q)
  || same_key (paypalCaptureId p) (paypalCaptureId q)
  || same_key (key_user_plan_minute p) (key_user_plan_minute q).

(** [INSERT ... RETURNING *]: the id of [v] is assigned by the store. *)
Definition insert_row (st : Store) (v : Payment) : Store * Result Payment :=
  if existsb (conflicts v) (rows st)
  then (st, Throw (QueryFailedError pgUniqueViolationCode))
  else let r := set_id (next_id st) v in
       ({| rows := rows st ++ [r]; next_id := next_id st + 1 |}, Ok r).

Definition has_id (i : Z) (p : Payment) : bool := bool_decide (id p = i).

Definition replace_row (p : Payment) (l : list Payment) : list Payment :=
  map (fun q => if has_id (id p) q then p else q) l.

(** [repo.save(p)] of a loaded entity: an UPDATE by primary key (an
    INSERT when the row is gone).  The refresh of [updated_at] by
    [@UpdateDateColumn] is left to the explicit assignments. *)
Definition save (st : Store) (p : Payment) : Store * Result Payment :=
  if existsb (fun q => negb (has_id (id p) q) && conflicts p q) (rows st)
  then (st, Throw (QueryFailedError pgUniqueViolationCode))
  else if existsb (has_id (id p)) (rows st)
       then ({| rows := replace_row p (rows st); next_id := next_id st |}, Ok p)
       else ({| rows := rows st ++ [p]; next_id := next_id st |}, Ok p).

(** [repo.delete(pid)] *)
Definition delete_id (st : Store) (pid : Z) : Store :=
  {| rows := List.filter (fun q => negb (has_id pid q)) (rows st); next_id := next_id st |}.

(** [findOne({ where })] without an order: the first row that matches. *)
Definition findOne (P : Payment -> bool) (st : Store) : option Payment :=
  List.find P (rows st).

(** The most recently created row of a list ([ORDER BY created_at DESC
    LIMIT 1]); among rows created at the same instant, the first. *)
Fixpoint latest (l : list Payment) : option Payment :=
  match l with
  | [] => None
  | p :: l' =>
      match latest l' with
      | None => Some p
      | Some b => if bool_decide (createdAt p < createdAt b) then Some b else Some p
      end
  end.

Definition findLatest (P : Payment -> bool) (st : Store) : option Payment :=
  latest (List.filter P (rows st)).

(** Well-formed table: primary keys below the sequence, and no two
    rows in conflict. *)
Fixpoint pairwise_ok (l : list Payment) : bool :=
  match l with
  | [] => true
  | p :: l' =>
      forallb (fun q => negb (has_id (id p) q) && negb (conflicts p q)) l'
      && pairwise_ok l'
  end.

Definition store_ok (st : Store) : Prop :=
  pairwise_ok (rows st) = true /\
  forallb (fun p => bool_decide (id p < next_id st)) (rows st) = true.

Definition emptyStore : Store := {| rows := []; next_id := 1 |}.

(** ** PaymentsService: helpers *)

Definition ensureValidUserId (userId : Z) : Result Z :=
  if bool_decide (userId = 0) then Throw (BadRequestException "Invalid user id")
  else Ok userId.

(** Price of a plan, in cents, with its currency. *)
Definition mapPlanPrice (plan : string) (billingPeriod : option string) : Z * string :=
  let p := Js.toLowerCase (if Js.truthy plan then plan else "Pro") in
  if bool_decide (p = "pro") then
    if bool_decide (billingPeriod = Some "yearly") then (9900, "USD") else (1299, "USD")
  else if bool_decide (p = "tutor") then
    if bool_decide (billingPeriod = Some "yearly") then (19900, "USD") else (2499, "USD")
  else (0, "USD").

Record InvoiceDTO := {
  inv_id : Z;
  inv_date : Z;
  inv_amount : Z;
  inv_currency : string;
  inv_status : string;
  inv_reason : option string;
  inv_change_to : option string;
  inv_plan : option string;
  inv_raw : Raw }.

Definition raw_meta (r : Raw) : option Meta :=
  match r with RawMeta m => Some m | _ => None end.

Definition invoiceShapeFromRow (row : Payment) : InvoiceDTO :=
  {| inv_id := id row;
     inv_date := createdAt row;
     inv_amount := amount row;
     inv_currency := currency row;
     inv_status := status row;
     inv_reason := match raw_meta (raw row) with Some m => m_reason m | None => None end;
     inv_change_to := match raw_meta (raw row) with Some m => m_change_to m | None => None end;
     inv_plan := plan row;
     inv_raw := raw row |}.

(** [COALESCE(p.user_id, 0) = COALESCE(:uid, 0)] *)
Definition coalesce_user (p : Payment) (uid : Z) : bool :=
  bool_decide (user_id p ??! 0 = uid).

(** [p.billing_period IS NULL] when [billing] is empty, equality otherwise. *)
Definition billing_matches (p : Payment) (billing : string) : bool :=
  if bool_decide (billing = "") then bool_decide (billingPeriod p = None)
  else bool_decide (billingPeriod p = Some billing).

(** The rows of one [(owner, plan, billing, minute bucket)]. *)
Definition inBucket (uid : Z) (planName billing : string) (minute : Z) (p : Payment) : bool :=
  coalesce_user p uid
  && bool_decide (plan p = Some planName)
  && bool_decide (createdAtMinute p = Some minute)
  && billing_matches p billing.

Definition findExistingPending (st : Store) (now : Z) (userId : Z)
    (plan billingPeriod : option string) (createdAt : option Z) : Result (option InvoiceDTO) :=
  match ensureValidUserId userId with
  | Throw e => Throw e
  | Ok uid =>
      let planName := plan ??! "Pro" in
      let billing := billingPeriod ??! "monthly" in
      let createdIso := createdAt ??! now in
      let minuteBucket := Js.setSeconds00 createdIso in
      match findLatest (fun p => inBucket uid planName billing minuteBucket p && isPending p) st with
      | Some found => Ok (Some (invoiceShapeFromRow found))
      | None => Ok None
      end
  end.

(** ** createPendingPayment *)

Record PendingArgs := {
  pa_userId : Z;
  pa_plan : option string;
  pa_billingPeriod : option string;
  pa_amount : option Z;              (* [None]: null or blank *)
  pa_clientTempId : option string;
  pa_createdAt : option Z;           (* [None]: null or unparsable *)
  pa_reason : option string }.

Definition pa_planName (a : PendingArgs) : string := pa_plan a ??! "Pro".
Definition pa_billing (a : PendingArgs) : string := pa_billingPeriod a ??! "monthly".
Definition pa_nowIso (now : Z) (a : PendingArgs) : Z := pa_createdAt a ??! now.
Definition pa_minuteBucket (now : Z) (a : PendingArgs) : Z := Js.setSeconds00 (pa_nowIso now a).

(** [clientTempId && String(clientTempId).trim() !== ""] *)
Definition pa_hasToken (a : PendingArgs) : bool :=
  match pa_clientTempId a with Some c => negb (Js.blank c) | None => false end.

Definition pa_rawMeta (now : Z) (a : PendingArgs) : Meta :=
  {| m_reason := Some (pa_reason a ??! "regular");
     m_change_to := Some (pa_planName a);
     m_client_temp_id := if pa_hasToken a then pa_clientTempId a else None;
     m_createdAt := Some (pa_nowIso now a) |}.

Definition pa_price (a : PendingArgs) : Z * string :=
  match pa_amount a with
  | Some c => (c, "USD")
  | None => mapPlanPrice (pa_planName a) (Some (pa_billing a))
  end.

(** The values of both INSERT statements of [createPendingPayment]. *)
Definition pa_insertObj (now : Z) (a : PendingArgs) : Payment :=
  {| id := 0;
     user_id := Some (pa_userId a);
     plan := Some (pa_planName a);
     billingPeriod := if bool_decide (pa_billing a = "") then None else Some (pa_billing a);
     amount := fst (pa_price a);
     currency := snd (pa_price a);
     paypalOrderId := None;
     paypalCaptureId := None;
     status := "pending";
     payerEmail := None;
     payerName := None;
     clientTempId := pa_clientTempId a;
     raw := RawMeta (pa_rawMeta now a);
     createdAtMinute := Some (pa_minuteBucket now a);
     createdAt := pa_nowIso now a;
     updatedAt := pa_nowIso now a |}.

(** [INSERT ... ON CONFLICT (client_temp_id) DO UPDATE SET updated_at =
    EXCLUDED.updated_at RETURNING *].  The statement needs a unique index
    on [client_temp_id] as its arbiter; the entity declares that index
    non-unique, so the statement is rejected. *)
Definition upsertByClientTempId (st : Store) (v : Payment) : Store * Result Payment :=
  if ux_payments_client_temp_id_unique then
    match findOne (fun q => same_key (clientTempId v) (clientTempId q)) st with
    | Some q => save st (set_updatedAt (updatedAt v) q)
    | None => insert_row st v
    end
  else (st, Throw (QueryFailedError pgNoArbiterIndexCode)).

(** The query of the unique-violation handler. *)
Definition duplicateLookup (st : Store) (uid : Z) (planName billing : string) (minute : Z)
  : option Payment :=
  findLatest (fun p => inBucket uid planName billing minute p
                       && bool_decide (status p = "pending")) st.

(** [findOne({ where: { user_id: uid, plan: planName }, order: { createdAt: "DESC" } })] *)
Definition fallbackLookup (st : Store) (uid : Z) (planName : string) : option Payment :=
  findLatest (fun p => bool_decide (user_id p = Some uid)
                       && bool_decide (plan p = Some planName)) st.

Definition isUniqueViolation (e : Error) : bool :=
  match e with
  | QueryFailedError c => bool_decide (c = pgUniqueViolationCode)
  | _ => false
  end.

(** The statements after the upsert attempt. *)
Definition createPendingPayment_insert (st1 : Store) (now : Z) (a : PendingArgs) (uid : Z)
  : Store * Result InvoiceDTO :=
  let planName := pa_planName a in
  let billing := pa_billing a in
  let minuteBucket := pa_minuteBucket now a in
  match findExistingPending st1 now uid (Some planName) (Some billing)
                            (Some (pa_nowIso now a)) with
  | Ok (Some existing) => (st1, Ok existing)
  | _ =>
    match insert_row st1 (pa_insertObj now a) with
    | (st2, Ok insertedRow) =>
        match findOne (has_id (id insertedRow)) st2 with
        | Some persisted => (st2, Ok (invoiceShapeFromRow persisted))
        | None => (st2, Ok (invoiceShapeFromRow insertedRow))
        end
    | (st2, Throw err) =>
        let dup :=
          if isUniqueViolation err
          then duplicateLookup st2 uid planName billing minuteBucket
          else None in
        match dup with
        | Some found => (st2, Ok (invoiceShapeFromRow found))
        | None =>
            match fallbackLookup st2 uid planName with
            | Some fallback => (st2, Ok (invoiceShapeFromRow fallback))
            | None => (st2, Throw (HttpException500 "Failed to create pending invoice"))
            end
        end
    end
  end.

Definition createPendingPayment (st : Store) (now : Z) (a : PendingArgs)
  : Store * Result InvoiceDTO :=
  match ensureValidUserId (pa_userId a) with
  | Throw e => (st, Throw e)
  | Ok uid =>
    if pa_hasToken a then
      match upsertByClientTempId st (pa_insertObj now a) with
      | (st1, Ok row) => (st1, Ok (invoiceShapeFromRow row))
      | (st1, Throw _) => createPendingPayment_insert st1 now a uid
      end
    else createPendingPayment_insert st now a uid
  end.

(** *** Concurrent requests

    Each request is a thread that reaches the table only through the
    statements above; a schedule interleaves the statements of the
    threads.  A statement is atomic, the gap between two statements of
    one request is not. *)

Inductive Pc :=
| PcStart
| PcLookup
| PcInsert
| PcReload (insertedRow : Payment)
| PcDuplicate
| PcFallback
| PcDone (r : Result InvoiceDTO).

Record Thread := {
  th_args : PendingArgs;
  th_now : Z;
  th_pc : Pc }.

Definition at_pc (th : Thread) (pc : Pc) : Thread :=
  {| th_args := th_args th; th_now := th_now th; th_pc := pc |}.

(** One statement of one request. *)
Definition cpp_step (st : Store) (th : Thread) : Store * Thread :=
  let a := th_args th in
  let now := th_now th in
  let uid := pa_userId a in
  match th_pc th with
  | PcStart =>
      match ensureValidUserId uid with
      | Throw e => (st, at_pc th (PcDone (Throw e)))
      | Ok _ =>
          if pa_hasToken a then
            match upsertByClientTempId st (pa_insertObj now a) with
            | (st1, Ok row) => (st1, at_pc th (PcDone (Ok (invoiceShapeFromRow row))))
            | (st1, Throw _) => (st1, at_pc th PcLookup)
            end
          else (st, at_pc th PcLookup)
      end
  | PcLookup =>
      match findExistingPending st now uid (Some (pa_planName a)) (Some (pa_billing a))
                                (Some (pa_nowIso now a)) with
      | Ok (Some existing) => (st, at_pc th (PcDone (Ok existing)))
      | _ => (st, at_pc th PcInsert)
      end
  | PcInsert =>
      match insert_row st (pa_insertObj now a) with
      | (st2, Ok insertedRow) => (st2, at_pc th (PcReload insertedRow))
      | (st2, Throw err) =>
          if isUniqueViolation err then (st2, at_pc th PcDuplicate)
          else (st2, at_pc th PcFallback)
      end
  | PcReload insertedRow =>
      match findOne (has_id (id insertedRow)) st with
      | Some persisted => (st, at_pc th (PcDone (Ok (invoiceShapeFromRow persisted))))
      | None => (st, at_pc th (PcDone (Ok (invoiceShapeFromRow insertedRow))))
      end
  | PcDuplicate =>
      match duplicateLookup st uid (pa_planName a) (pa_billing a) (pa_minuteBucket now a) with
      | Some found => (st, at_pc th (PcDone (Ok (invoiceShapeFromRow found))))
      | None => (st, at_pc th PcFallback)
      end
  | PcFallback =>
      match fallbackLookup st uid (pa_planName a) with
      | Some fallback => (st, at_pc th (PcDone (Ok (invoiceShapeFromRow fallback))))
      | None => (st, at_pc th (PcDone (Throw (HttpException500 "Failed to create pending invoice"))))
      end
  | PcDone r => (st, th)
  end.

Definition System : Type := Store * list Thread.

(** Thread [i] executes its next statement. *)
Definition sys_step (i : nat) (s : System) : System :=
  match snd s !! i with
  | Some th => let '(st', th') := cpp_step (fst s) th in (st', <[i := th']> (snd s))
  | None => s
  end.

Definition run (sched : list nat) (s : System) : System :=
  fold_left (fun s i => sys_step i s) sched s.

Definition cpp_max_steps : nat := 5.

(** Every thread in turn runs to its end. *)
Definition drain (n : nat) : list nat :=
  flat_map (fun i => repeat i cpp_max_steps) (seq 0 n).

Definition spawn (calls : list (Z * PendingArgs)) : list Thread :=
  map (fun c => {| th_args := snd c; th_now := fst c; th_pc := PcStart |}) calls.

Definition is_done (th : Thread) : bool :=
  match th_pc th with PcDone _ => true | _ => false end.

Definition returned (th : Thread) : bool :=
  match th_pc th with PcDone (Ok _) => true | _ => false end.

Definition bucketRows (uid : Z) (planName billing : string) (minute : Z) (st : Store)
  : list Payment :=
  List.filter (inBucket uid planName billing minute) (rows st).

(** ** attachOrderToPayment *)

(** [__meta.createdAt ?? __meta.created_at] of a [raw] value. *)
Definition raw_createdMeta (r : Raw) : option Z :=
  match raw_meta r with Some m => m_createdAt m | None => None end.

Definition raw_truthy (r : option Raw) : bool :=
  match r with Some RawNull | None => false | Some _ => true end.

Definition attachOrderToPayment (st : Store) (now : Z) (userId paymentId : Z)
    (orderID : string) (raw_arg : option Raw) : Store * Result InvoiceDTO :=
  match ensureValidUserId userId with
  | Throw e => (st, Throw e)
  | Ok uid =>
    if bool_decide (paymentId = 0) then (st, Throw (BadRequestException "Invalid paymentId"))
    else
      match findOne (has_id paymentId) st with
      | None => (st, Throw (NotFoundException "Payment not found"))
      | Some p =>
        if negb (bool_decide (user_id p = Some uid))
        then (st, Throw (NotFoundException "Payment not found for user"))
        else
          let p1 := set_paypalOrderId (Some orderID) p in
          let p2 := if raw_truthy raw_arg then set_raw (raw_arg ??! RawNull) p1 else p1 in
          let p3 := match raw_createdMeta (raw p2) with
                    | Some d => set_createdAtMinute (Some (Js.setSeconds00 d)) (set_createdAt d p2)
                    | None => p2
                    end in
          let p4 := set_updatedAt now p3 in
          match save st p4 with
          | (st', Ok saved) => (st', Ok (invoiceShapeFromRow saved))
          | (st', Throw e) => (st', Throw e)
          end
      end
  end.

(** [PaymentsController.attachOrder]: the request handler around
    [attachOrderToPayment].  Every error of the service is rethrown as a
    500 whose [error] field carries the message of the cause. *)
Definition attachOrder (st : Store) (now : Z) (userId paymentId : Z)
    (orderID : string) (raw_arg : option Raw) : Store * Result InvoiceDTO :=
  if bool_decide (userId = 0)
  then (st, Throw (BadRequestException "Invalid or missing user id"))
  else if bool_decide (paymentId = 0)
  then (st, Throw (BadRequestException "Invalid paymentId"))
  else if Js.blank orderID
  then (st, Throw (BadRequestException "Invalid orderID"))
  else
    match attachOrderToPayment st now userId paymentId orderID raw_arg with
    | (st', Ok invoice) => (st', Ok invoice)
    | (st', Throw _) => (st', Throw (HttpException500 "Failed to attach order to invoice"))
    end.

(** ** tryAttachToPending and captureOrder *)

Definition firstUnit (o : option Order) : option PurchaseUnit :=
  match o with
  | Some o' => match o_purchase_units o' with Some (pu :: _) => Some pu | _ => None end
  | None => None
  end.

Definition firstCapture (pu : option PurchaseUnit) : option Capture :=
  match pu with
  | Some pu' => match pu_captures pu' with Some (c :: _) => Some c | _ => None end
  | None => None
  end.

(** Optional chaining [x?.f]. *)
Definition chain {A B} (x : option A) (f : A -> option B) : option B :=
  match x with Some a => f a | None => None end.

Definition payerEmailOf (o : Order) : option string :=
  chain (o_payer o) email_address.

(** [given_name ? `${given_name} ${surname ?? ""}` : dflt] *)
Definition payerNameOf (o : Order) (dflt : option string) : option string :=
  match chain (o_payer o) given_name with
  | Some g => if Js.truthy g
              then Some (g +:+ " " +:+ (chain (o_payer o) surname ??! ""))
              else dflt
  | None => dflt
  end.

(** [cap?.status ?? order.status]: the status the gateway reports. *)
Definition reportedStatus (o : Order) : option string :=
  chain (firstCapture (firstUnit (Some o))) cap_status ?? o_status o.

(** The four lookups of [tryAttachToPending], in the order they are tried. *)

(** 1) by [paypal_order_id] *)
Definition attachByOrder (st : Store) (orderId : option string) : option Payment :=
  match orderId with
  | Some oid => if Js.truthy oid
                then findOne (fun p => bool_decide (paypalOrderId p = Some oid)) st
                else None
  | None => None
  end.

(** 2) by the [client_temp_id] carried in the capture result *)
Definition attachByToken (st : Store) (captureResult : option Order) : option Payment :=
  let pu := firstUnit captureResult in
  let metaClientTemp :=
    chain pu pu_reference_id ?? chain pu pu_invoice_id
    ?? chain captureResult o_meta_client_temp_id
    ?? chain captureResult o_raw_meta_client_temp_id in
  match metaClientTemp with
  | Some ct => if Js.truthy ct
               then findLatest (fun p => bool_decide (clientTempId p = Some ct)) st
               else None
  | None => None
  end.

(** 3) by minute bucket and amount; the query has no status filter *)
Definition attachByMinute (st : Store) (captureResult : option Order) : option Payment :=
  let pu := firstUnit captureResult in
  let cap := firstCapture pu in
  let amountVal :=
    chain cap cap_amount_value ?? chain pu pu_amount_value
    ?? chain captureResult o_amount_value in
  let createdTime :=
    chain cap cap_create_time ?? chain captureResult o_create_time
    ?? chain captureResult o_update_time in
  match createdTime, amountVal with
  | Some d, Some amt =>
      findLatest (fun p => bool_decide (createdAtMinute p = Some (Js.setSeconds00 d))
                           && bool_decide (amount p = amt)) st
  | _, _ => None
  end.

(** 4) the most recent pending row of the user *)
Definition attachByUser (st : Store) (uid : option Z) : option Payment :=
  match uid with
  | Some u =>
      if bool_decide (u = 0) then None
      else findLatest (fun p => bool_decide (user_id p = Some u) && isPending p) st
  | None => None
  end.

Definition tryAttachToPending (st : Store) (paymentRow : option Payment)
    (orderId : option string) (captureResult : option Order) (uid : option Z)
  : option Payment :=
  paymentRow
  ?? attachByOrder st orderId
  ?? attachByToken st captureResult
  ?? attachByMinute st captureResult
  ?? attachByUser st uid.

(** The plan and expiry update that follows a settled payment (the same
    statements in [captureOrder] and in [handleWebhook]). *)
Definition grantPlan (env : Env) (users : gmap Z User) (now : Z) (uid : Z) (payment : Payment)
  : gmap Z User :=
  match users !! uid with
  | Some user =>
      let planName := Js.or_else (Js.or_else (plan payment) (u_plan user)) (Some "Pro") ??! "Pro" in
      let billing := Js.or_else (billingPeriod payment) (Some "monthly") ??! "monthly" in
      let expiry :=
        if bool_decide (billing = "monthly") then Some (Js.plus30days now)
        else if bool_decide (billing = "yearly") then Some (plusOneYear env now)
        else None in
      <[uid := {| u_plan := Some planName; u_plan_expiry := expiry |}]> users
  | None => users
  end.

Definition isFinal (p : Payment) : bool :=
  bool_decide (Js.toLowerCase (status p) ∈ finalStatuses).

Definition captureOrder (env : Env) (st : Store) (users : gmap Z User) (now : Z)
    (userId : Z) (orderID : string) : Store * gmap Z User * Result Payment :=
  match ensureValidUserId userId with
  | Throw e => (st, users, Throw e)
  | Ok uid =>
    if negb (Js.truthy orderID) then (st, users, Throw (BadRequestException "Missing order id"))
    else
      match captureOrderOnPayPal env orderID with
      | None => (st, users, Throw GatewayError)
      | Some captureResult =>
        let purchaseUnit := firstUnit (Some captureResult) in
        let capture := firstCapture purchaseUnit in
        let captureId := chain capture cap_id in
        let status_ := chain capture cap_status ?? o_status captureResult ??! "COMPLETED" in
        let amountVal := chain capture cap_amount_value ?? chain purchaseUnit pu_amount_value in
        let currency_ := chain capture cap_currency_code ?? chain purchaseUnit pu_currency_code
                         ??! "USD" in
        let found :=
          match findOne (fun p => bool_decide (paypalOrderId p = Some orderID)) st with
          | Some p => Some p
          | None => tryAttachToPending st None (Some orderID) (Some captureResult) (Some uid)
          end in
        let written :=
          match found with
          | None =>
              insert_row st
                {| id := 0;
                   user_id := Some uid;
                   plan := Some "Pro";
                   billingPeriod := None;
                   amount := amountVal ??! 0;
                   currency := currency_;
                   paypalOrderId := Some orderID;
                   paypalCaptureId := captureId;
                   status := Js.toLowerCase status_;
                   payerEmail := payerEmailOf captureResult;
                   payerName := payerNameOf captureResult None;
                   clientTempId := None;
                   raw := RawOrder captureResult;
                   createdAtMinute := Some (Js.setSeconds00 now);
                   createdAt := now;
                   updatedAt := now |}
          | Some payment =>
              save st
                (set_payerName (payerNameOf captureResult (payerName payment))
                (set_payerEmail (payerEmailOf captureResult ?? payerEmail payment)
                (set_raw (RawOrder captureResult)
                (set_currency currency_
                (set_amount (amountVal ??! amount payment)
                (set_status (Js.toLowerCase status_)
                (set_paypalCaptureId (captureId ?? paypalCaptureId payment) payment)))))))
          end in
        match written with
        | (st', Throw e) => (st', users, Throw e)
        | (st', Ok payment) =>
            let users' := if isFinal payment then grantPlan env users now uid payment else users in
            (st', users', Ok payment)
        end
      end
  end.

(** ** getAccessInfo *)

Record AccessInfo := {
  allowed : bool;
  activeSubscription : bool;
  hasSuccessfulPayment : bool;
  ai_plan : option string;
  ai_plan_expiry : option Z;
  ai_reason : option string;
  pendingAmount : option (Z * string) }.

Definition denied (why : string) : AccessInfo :=
  {| allowed := false; activeSubscription := false; hasSuccessfulPayment := false;
     ai_plan := None; ai_plan_expiry := None; ai_reason := Some why; pendingAmount := None |}.


(** [expiry.getTime() > Date.now()] *)
Definition expiryInFuture (u : User) (now : Z) : bool :=
  match u_plan_expiry u with
  | Some expiry => bool_decide (now < expiry)
  | None => false
  end.

Definition getAccessInfo (st : Store) (users : gmap Z User) (now : Z) (userId : Z)
  : AccessInfo :=
  if bool_decide (userId = 0) then denied "invalid_user"
  else
    match users !! userId with
    | None => denied "user_not_found"
    | Some user =>
        let plan_ := u_plan user ??! "Free" in
        let activeSubscription_ := expiryInFuture user now in
        let found :=
          findLatest (fun p => bool_decide (user_id p = Some userId)
                               && bool_decide (status p ∈ allowedStatuses)) st in
        let hasSuccessfulPayment_ := match found with Some _ => true | None => false end in
        let allowed_ :=
          if bool_decide (Js.toLowerCase plan_ = "free") then true
          else activeSubscription_ || hasSuccessfulPayment_ in
        let pending :=
          findLatest (fun p => bool_decide (user_id p = Some userId) && isPending p) st in
        {| allowed := allowed_;
           activeSubscription := activeSubscription_;
           hasSuccessfulPayment := hasSuccessfulPayment_;
           ai_plan := Some plan_;
           ai_plan_expiry := u_plan_expiry user;
           ai_reason := None;
           pendingAmount :=
             match pending with
             | Some p => Some (amount p, Js.toUpperCase (currency p))
             | None => None
             end |}
    end.

(** ** handleWebhook *)

Definition eventTypeOf (event : Event) : option string :=
  event_type event ?? e_type event.

Definition orderIdOf (res : Resource) : option string :=
  r_related_order_id res ?? r_order_id res ?? r_id res.

(** The candidate of the minute + amount heuristic of [handleWebhook]. *)
Definition heuristicCandidate (st : Store) (minute amt : Z) : option Payment :=
  findLatest (fun p => bool_decide (createdAtMinute p = Some minute)
                       && bool_decide (amount p = amt)
                       && isPending p) st.

(** [cand && cand.user_id] *)
Definition hasOwner (p : Payment) : bool :=
  match user_id p with Some u => negb (bool_decide (u = 0)) | None => false end.

Definition handleWebhook (env : Env) (st : Store) (users : gmap Z User) (now : Z)
    (event : Event) : Store * gmap Z User :=
  match eventTypeOf event with
  | None => (st, users)
  | Some eventType =>
    if negb (Js.truthy eventType) then (st, users)
    else if negb (bool_decide (eventType ∈ captureEventTypes)) then (st, users)
    else
      let res := resource event ??! emptyResource in
      let orderId := orderIdOf res in
      if negb (Js.truthy_opt orderId) && Js.truthy_opt (r_id res) then
        (* no order id: the payload's own status is written *)
        match findOne (fun p => bool_decide (paypalCaptureId p = r_id res)) st with
        | Some payment =>
            let p' := set_raw (RawEvent event)
                        (set_status (Js.toLowerCase (r_status res ??! status payment)) payment) in
            (fst (save st p'), users)
        | None => (st, users)
        end
      else
        match orderId with
        | None => (st, users)
        | Some oid =>
          if negb (Js.truthy oid) then (st, users)
          else
            match getOrderOnPayPal env oid with
            | None => (st, users)
            | Some order =>
              let pu := firstUnit (Some order) in
              let cap := firstCapture pu in
              match findOne (fun p => bool_decide (paypalOrderId p = Some oid)) st with
              | Some payment =>
                  let p' :=
                    set_raw (RawOrder order)
                    (set_payerName (payerNameOf order (payerName payment))
                    (set_payerEmail (payerEmailOf order ?? payerEmail payment)
                    (set_status (Js.toLowerCase
                                   (chain cap cap_status ?? o_status order ??! status payment))
                    (set_paypalCaptureId (chain cap cap_id ?? paypalCaptureId payment)
                       payment)))) in
                  (fst (save st p'), users)
              | None =>
                  let amount_ := chain pu pu_amount_value in
                  let currency_ := chain pu pu_currency_code ??! "USD" in
                  let createdAtIso :=
                    chain cap cap_create_time ?? o_create_time order ?? o_update_time order
                    ??! now in
                  let minuteBucket := Js.setSeconds00 createdAtIso in
                  let foundPending :=
                    match heuristicCandidate st minuteBucket (amount_ ??! 0) with
                    | Some cand => if hasOwner cand then Some cand else None
                    | None => None
                    end in
                  match foundPending with
                  | Some fp =>
                      let p' :=
                        set_raw (RawOrder order)
                        (set_payerName (payerNameOf order (payerName fp))
                        (set_payerEmail (payerEmailOf order ?? payerEmail fp)
                        (set_status (Js.toLowerCase
                                       (chain cap cap_status ?? o_status order ??! status fp))
                        (set_paypalCaptureId (chain cap cap_id ?? paypalCaptureId fp)
                        (set_paypalOrderId (Some oid) fp))))) in
                      match save st p' with
                      | (st', Ok saved) =>
                          (st', grantPlan env users now (user_id saved ??! 0) saved)
                      | (st', Throw _) => (st', users)
                      end
                  | None =>
                      let insertObj :=
                        {| id := 0;
                           user_id := None;
                           plan := None;
                           billingPeriod := None;
                           amount := amount_ ??! 0;
                           currency := currency_;
                           paypalOrderId := Some oid;
                           paypalCaptureId := chain cap cap_id;
                           status := Js.toLowerCase
                                       (chain cap cap_status ?? o_status order ??! "completed");
                           payerEmail := payerEmailOf order;
                           payerName := payerNameOf order None;
                           clientTempId := None;
                           raw := RawOrder order;
                           createdAtMinute := Some minuteBucket;
                           createdAt := now;
                           updatedAt := now |} in
                      (fst (insert_row st insertObj), users)
                  end
              end
            end
        end
  end.

(** ** deletePaymentForUser and clearPendingForUser *)

Definition deletePaymentForUser (st : Store) (userId paymentId : Z) : Store * Result bool :=
  match ensureValidUserId userId with
  | Throw e => (st, Throw e)
  | Ok uid =>
    if bool_decide (paymentId = 0) then (st, Throw (BadRequestException "Invalid payment id"))
    else
      match findOne (has_id paymentId) st with
      | None => (st, Ok false)
      | Some payment =>
          if negb (bool_decide (user_id payment = Some uid))
          then (st, Throw (ForbiddenException "Not allowed to delete this payment"))
          else (delete_id st paymentId, Ok true)
      end
  end.

Definition clearPendingForUser (st : Store) (userId : Z) : Store * Result Z :=
  match ensureValidUserId userId with
  | Throw e => (st, Throw e)
  | Ok uid =>
      let doomed := fun p => coalesce_user p uid && isPending p in
      ({| rows := List.filter (fun p => negb (doomed p)) (rows st); next_id := next_id st |},
       Ok (Z.of_nat (List.length (List.filter doomed (rows st)))))
  end.

(** ** Vocabulary of the statements *)

(** The bucket a request falls in. *)
Definition call_bucket (c : Z * PendingArgs) : Z * string * string * Z :=
  (pa_userId (snd c), pa_planName (snd c), pa_billing (snd c),
   pa_minuteBucket (fst c) (snd c)).


(** The bucket, amount and capture id [handleWebhook] derives from the
    re-fetched order. *)
Definition captureOf (o : Order) : option Capture := firstCapture (firstUnit (Some o)).
Definition captureIdOf (o : Order) : option string := chain (captureOf o) cap_id.

(** Invariant of one bucket while requests for it are in flight. *)
Module Inv.

Definition same_bucket (uid : Z) (planName billing : string) (minute : Z) (th : Thread)
  : Prop :=
  pa_userId (th_args th) = uid /\ pa_planName (th_args th) = planName /\
  pa_billing (th_args th) = billing /\
  pa_minuteBucket (th_now th) (th_args th) = minute.

Definition occupied (uid : Z) (planName billing : string) (minute : Z) (st : Store) : Prop :=
  exists q, In q (rows st) /\ inBucket uid planName billing minute q = true.

Definition crowd (uid : Z) (planName billing : string) (minute : Z) (st : Store) : nat :=
  List.length (bucketRows uid planName billing minute st).

(** The rows of the bucket are all in a pending status. *)
Definition all_pending_like (uid : Z) (planName billing : string) (minute : Z) (st : Store)
  : Prop :=
  forall q, In q (rows st) -> inBucket uid planName billing minute q = true ->
            isPending q = true.

(** The rows of the bucket all have the status ["pending"]. *)
Definition all_pending (uid : Z) (planName billing : string) (minute : Z) (st : Store)
  : Prop :=
  forall q, In q (rows st) -> inBucket uid planName billing minute q = true ->
            status q = "pending".

Definition bucket_row (uid : Z) (planName billing : string) (minute : Z) (st : Store)
    (inv : InvoiceDTO) : Prop :=
  exists q, In q (rows st) /\ inBucket uid planName billing minute q = true /\
            inv = invoiceShapeFromRow q.

(** What the program counter of a request says about the table. *)
Definition pc_ok (uid : Z) (planName billing : string) (minute : Z) (st : Store)
    (th : Thread) : Prop :=
  match th_pc th with
  | PcStart | PcLookup => True
  | PcInsert =>
      all_pending_like uid planName billing minute st ->
      all_pending uid planName billing minute st
  | PcReload ins => In ins (rows st) /\ inBucket uid planName billing minute ins = true
  | PcDuplicate =>
      occupied uid planName billing minute st /\
      (all_pending_like uid planName billing minute st ->
       all_pending uid planName billing minute st)
  | PcFallback =>
      occupied uid planName billing minute st /\
      ~ all_pending_like uid planName billing minute st
  | PcDone (Ok inv) =>
      occupied uid planName billing minute st /\
      (all_pending_like uid planName billing minute st ->
       bucket_row uid planName billing minute st inv)
  | PcDone (Throw _) => False
  end.

(** The table only gains rows, and these are ["pending"]. *)
Definition grows (st st' : Store) : Prop :=
  exists l, rows st' = (rows st ++ l)%list /\
            forall q, In q l -> status q = "pending".

Definition bucket_inv (uid : Z) (planName billing : string) (minute : Z) (s0 s : System)
  : Prop :=
  store_ok (fst s) /\ (crowd uid planName billing minute (fst s) <= 1)%nat /\
  grows (fst s0) (fst s) /\
  Forall (fun th => same_bucket uid planName billing minute th /\
                    pc_ok uid planName billing minute (fst s) th) (snd s).

(** Statements a request still has to run. *)
Definition rank (pc : Pc) : nat :=
  match pc with
  | PcStart => 5
  | PcLookup => 4
  | PcInsert => 3
  | PcDuplicate => 2
  | PcReload _ | PcFallback => 1
  | PcDone _ => 0
  end.

(** Statements left to thread [j]; [0] for a thread that does not exist. *)
Definition left_to_run (s : System) (j : nat) : nat :=
  match snd s !! j with Some th => rank (th_pc th) | None => 0%nat end.

End Inv.

(** ** Scenarios *)

Module Scenario.

(** 10:15:07 and the minute it falls in. *)
Definition t0 : Z := 36907000.
Definition minute0 : Z := 36900000.
Definition day : Z := 86400000.

Definition proCall (token : string) (at_ : Z) : Z * PendingArgs :=
  (at_, {| pa_userId := 42; pa_plan := Some "Pro"; pa_billingPeriod := Some "monthly";
           pa_amount := Some 1299; pa_clientTempId := Some token;
           pa_createdAt := Some at_; pa_reason := None |}).


Definition row (i : Z) (owner : option Z) (plan_ billing : option string) (cents : Z)
    (order capture : option string) (status_ : string) (at_ : Z) : Payment :=
  {| id := i; user_id := owner; plan := plan_; billingPeriod := billing;
     amount := cents; currency := "USD"; paypalOrderId := order;
     paypalCaptureId := capture; status := status_; payerEmail := None;
     payerName := None; clientTempId := None; raw := RawNull;
     createdAtMinute := Some (Js.setSeconds00 at_); createdAt := at_; updatedAt := at_ |}.

(** Row 9001 of owner 42, settled. *)
Definition settledRow : Payment :=
  row 9001 (Some 42) (Some "Pro") (Some "monthly") 1299
      (Some "ORDER-1") (Some "CAP-1") "completed" t0.
Definition ledgerSettled : Store := {| rows := [settledRow]; next_id := 9002 |}.

(** Row 9001 with its order attached, not yet captured. *)
Definition attachedRow : Payment :=
  row 9001 (Some 42) (Some "Pro") (Some "monthly") 1299 (Some "ORDER-1") None "pending" t0.
Definition ledgerAttached : Store := {| rows := [attachedRow]; next_id := 9002 |}.

(** Two rows of owner 42; the first holds ORDER-1. *)
Definition otherRow : Payment :=
  row 9002 (Some 42) (Some "Pro") (Some "monthly") 1299 None None "pending" (t0 + 5 * 60000).
Definition ledgerTwo : Store := {| rows := [attachedRow; otherRow]; next_id := 9003 |}.

(** Two pending rows of two owners, same minute, same amount. *)
Definition rowOf7 : Payment :=
  row 1 (Some 7) (Some "Pro") (Some "monthly") 1299 None None "pending" t0.
Definition rowOf8 : Payment :=
  row 2 (Some 8) (Some "Pro") (Some "monthly") 1299 None None "pending" (t0 + 20000).
Definition ledgerTwoOwners : Store := {| rows := [rowOf7; rowOf8]; next_id := 3 |}.

(** An old pending row of owner 42 for another plan and amount. *)
Definition tutorRow : Payment :=
  row 5 (Some 42) (Some "Tutor") (Some "yearly") 19900 None None "pending" (t0 - 3 * day).
Definition ledgerTutor : Store := {| rows := [tutorRow]; next_id := 6 |}.

Definition orderWith (capture status_ : string) (cents at_ : Z) : Order :=
  {| o_status := Some status_;
     o_create_time := Some at_;
     o_update_time := Some at_;
     o_amount_value := None;
     o_payer := None;
     o_purchase_units :=
       Some [{| pu_reference_id := None; pu_invoice_id := None;
                pu_amount_value := Some cents; pu_currency_code := Some "USD";
                pu_captures :=
                  Some [{| cap_id := Some capture; cap_status := Some status_;
                           cap_amount_value := Some cents;
                           cap_currency_code := Some "USD";
                           cap_create_time := Some at_ |}] |}];
     o_meta_client_temp_id := None;
     o_raw_meta_client_temp_id := None |}.

(** A gateway that answers every call with [o]. *)
Definition gatewayReturning (o : Order) : Env :=
  {| captureOrderOnPayPal := fun _ => Some o;
     getOrderOnPayPal := fun _ => Some o;
     plusOneYear := fun t => t + 365 * day |}.

(** A gateway that cannot be reached. *)
Definition gatewayDown : Env :=
  {| captureOrderOnPayPal := fun _ => None;
     getOrderOnPayPal := fun _ => None;
     plusOneYear := fun t => t + 365 * day |}.

(** A webhook envelope naming its order. *)
Definition eventForOrder (ty order : string) : Event :=
  {| event_type := Some ty; e_type := None;
     resource := Some {| r_related_order_id := Some order; r_order_id := None;
                         r_id := Some "CAP-1"; r_status := Some "COMPLETED";
                         r_amount_value := Some 1299 |} |}.

(** A webhook envelope with an empty order id and the capture as resource. *)
Definition eventForCapture (ty capture status_ : string) : Event :=
  {| event_type := Some ty; e_type := None;
     resource := Some {| r_related_order_id := None; r_order_id := Some "";
                         r_id := Some capture; r_status := Some status_;
                         r_amount_value := Some 1 |} |}.

Definition freeUser : User := {| u_plan := Some "Free"; u_plan_expiry := None |}.
Definition lapsedUser : User := {| u_plan := Some "Pro"; u_plan_expiry := Some (t0 - day) |}.

Definition users42 (u : User) : gmap Z User := {[ 42 := u ]}.

End Scenario.

(** * The rest of the service *)

(** ** createOrder

    [createOrderOnPayPal] is passed in: it receives the amount and the
    currency of the purchase unit and answers [None] when it throws,
    [Some None] when the answer carries no id. *)

Definition createOrder (createOrderOnPayPal : Z -> string -> option (option string))
    (st : Store) (users : gmap Z User) (now : Z)
    (userId : Z) (plan_ : string) (billingPeriod_ : option string)
  : Store * Result (Payment * string) :=
  match ensureValidUserId userId with
  | Throw e => (st, Throw e)
  | Ok uid =>
    let price := mapPlanPrice plan_ billingPeriod_ in
    if bool_decide (fst price <= 0)
    then (st, Throw (BadRequestException "Invalid or free plan selected"))
    else
      let existing :=
        findLatest (fun p => bool_decide (user_id p = Some uid)
                             && bool_decide (plan p = Some plan_) && isPending p) st in
      let reusable :=
        match existing with
        | Some e => if Js.truthy_opt (paypalOrderId e)
                    then Some (e, paypalOrderId e ??! "") else None
        | None => None
        end in
      match reusable with
      | Some found => (st, Ok found)
      | None =>
        match createOrderOnPayPal (fst price) (snd price) with
        | None => (st, Throw GatewayError)
        | Some orderId =>
          if negb (Js.truthy_opt orderId)
          then (st, Throw (PlainError "PayPal order creation failed"))
          else
            let orderID := orderId ??! "" in
            let currentPlan := chain (users !! uid) u_plan in
            let changed :=
              Js.truthy_opt currentPlan
              && negb (bool_decide (Js.toLowerCase (currentPlan ??! "")
                                    = Js.toLowerCase plan_)) in
            let meta :=
              {| m_reason := Some (if changed then "change_plan" else "regular");
                 m_change_to := if changed then Some plan_ else None;
                 m_client_temp_id := None;
                 m_createdAt := None |} in
            match insert_row st
                    {| id := 0;
                       user_id := Some uid;
                       plan := Some plan_;
                       billingPeriod := billingPeriod_;
                       amount := fst price;
                       currency := snd price;
                       paypalOrderId := Some orderID;
                       paypalCaptureId := None;
                       status := "pending";
                       payerEmail := None;
                       payerName := None;
                       clientTempId := None;
                       raw := RawMeta meta;
                       createdAtMinute := Some (Js.setSeconds00 now);
                       createdAt := now;
                       updatedAt := now |} with
            | (st1, Throw e) => (st1, Throw e)
            | (st1, Ok saved) =>
                (* the row comes back with snake_case columns, so
                   [saved.createdAt] is undefined and the clock is used *)
                let saved' :=
                  set_raw (RawMeta {| m_reason := m_reason meta;
                                      m_change_to := m_change_to meta;
                                      m_client_temp_id := None;
                                      m_createdAt := Some now |}) saved in
                (fst (save st1 saved'), Ok (saved', orderID))
            end
        end
      end
  end.

(** ** attachOrderPublic

    [raw] is the client's payload; [rawPlan] is its [plan] field, the one
    field read from it that [Raw] does not carry. *)

Definition raw_unit (r : option Raw) : option PurchaseUnit :=
  match r with
  | Some (RawOrder o) => firstUnit (Some o)
  | _ => None
  end.

Definition attachOrderPublic (st : Store) (now : Z) (orderID : string)
    (raw_arg : option Raw) (rawPlan : option string)
    (createdAt_ : option Z) (clientTempId_ : option string)
  : Store * Result InvoiceDTO :=
  if Js.blank orderID then (st, Throw (BadRequestException "Invalid order id"))
  else
    let pu := raw_unit raw_arg in
    let amount_ := chain pu pu_amount_value ??! 0 in
    let currency_ := chain pu pu_currency_code ??! "USD" in
    let planName := rawPlan ??! "Pro" in
    let createdAtIso :=
      match createdAt_ with
      | Some d => d
      | None => chain raw_arg raw_createdMeta ??! now
      end in
    let minuteBucket := Js.setSeconds00 createdAtIso in
    let insertObj :=
      {| id := 0;
         user_id := None;
         plan := Some planName;
         billingPeriod := None;
         amount := amount_;
         currency := currency_;
         paypalOrderId := Some orderID;
         paypalCaptureId := None;
         status := "pending";
         payerEmail := None;
         payerName := None;
         clientTempId := clientTempId_;
         raw := if raw_truthy raw_arg then raw_arg ??! RawNull
                else RawMeta {| m_reason := None; m_change_to := None;
                                m_client_temp_id := clientTempId_;
                                m_createdAt := Some createdAtIso |};
         createdAtMinute := Some minuteBucket;
         createdAt := createdAtIso;
         updatedAt := createdAtIso |} in
    let attached :=
      match heuristicCandidate st minuteBucket amount_ with
      | Some found =>
          if hasOwner found then
            match save st (set_updatedAt now
                             (set_raw (raw insertObj)
                                (set_paypalOrderId (Some orderID) found))) with
            | (st', Ok saved) => Some (st', saved)
            | (_, Throw _) => None
            end
          else None
      | None => None
      end in
    match attached with
    | Some (st', saved) => (st', Ok (invoiceShapeFromRow saved))
    | None =>
        match insert_row st insertObj with
        | (st', Ok saved) => (st', Ok (invoiceShapeFromRow saved))
        | (st', Throw e) => (st', Throw e)
        end
    end.

(** ** Reads *)

Fixpoint insertDesc (p : Payment) (l : list Payment) : list Payment :=
  match l with
  | [] => [p]
  | q :: l' => if bool_decide (createdAt q < createdAt p) then p :: l
               else q :: insertDesc p l'
  end.

(** [order: { createdAt: "DESC" }] on a whole result set. *)
Definition byCreatedDesc (l : list Payment) : list Payment :=
  fold_right insertDesc [] l.

Definition listPaymentsForUser (st : Store) (userId : Z) : Result (list Payment) :=
  match ensureValidUserId userId with
  | Throw e => Throw e
  | Ok uid =>
      Ok (byCreatedDesc (List.filter (fun p => bool_decide (user_id p = Some uid)) (rows st)))
  end.

Definition getPaymentForUser (st : Store) (userId paymentId : Z) : Result Payment :=
  match ensureValidUserId userId with
  | Throw e => Throw e
  | Ok uid =>
      match findOne (has_id paymentId) st with
      | None => Throw (NotFoundException "Payment not found")
      | Some p =>
          if bool_decide (user_id p = Some uid) then Ok p
          else Throw (NotFoundException "Payment not found for user")
      end
  end.

Definition checkAccess (st : Store) (users : gmap Z User) (now userId : Z) : AccessInfo :=
  if bool_decide (userId = 0) then denied "invalid_user"
  else getAccessInfo st users now userId.

Record PaymentMethodPreview := {
  brand : string;
  masked : string }.

Definition getPaymentMethodPreview (st : Store) (userId : Z)
  : Result (option PaymentMethodPreview) :=
  match ensureValidUserId userId with
  | Throw e => Throw e
  | Ok uid =>
      match findLatest (fun p => bool_decide (user_id p = Some uid)) st with
      | None => Ok None
      | Some p => Ok (Some {| brand := "PayPal"; masked := payerEmail p ??! "" |})
      end
  end.

(** ** listInvoicesForUserCurated *)

Definition paidStatuses : list string :=
  ["completed"; "captured"; "succeeded"; "success"; "paid"].

Fixpoint startsWith (s sub : string) : bool :=
  match sub, s with
  | EmptyString, _ => true
  | String a sub', String b s' => bool_decide (a = b) && startsWith s' sub'
  | String _ _, EmptyString => false
  end.

(** [s.includes(sub)] *)
Fixpoint includes (s sub : string) : bool :=
  startsWith s sub
  || match s with
     | EmptyString => false
     | String _ s' => includes s' sub
     end.

Definition isPendingRow (p : Payment) : bool :=
  bool_decide (Js.toLowerCase (status p) ∈ pendingStatuses).
Definition isPaidRow (p : Payment) : bool :=
  bool_decide (Js.toLowerCase (status p) ∈ paidStatuses).

Definition buildInvoiceFromPayment (users : gmap Z User) (now uid : Z) (p : Payment)
  : InvoiceDTO :=
  let meta := raw_meta (raw p) in
  let reason1 :=
    match chain meta m_reason with
    | Some r0 =>
        if Js.truthy r0 then
          let r := Js.toLowerCase r0 in
          if includes r "change" then "change_plan"
          else if includes r "past" then "past_due"
          else if includes r "next" then "next_due"
          else "regular"
        else "unknown"
    | None => "unknown"
    end in
  let change1 :=
    if Js.truthy_opt (chain meta m_change_to) then chain meta m_change_to else None in
  let '(reason2, change2) :=
    if bool_decide (reason1 = "unknown") then
      let user := users !! uid in
      let profilePlan := chain user u_plan in
      let activeSubscription :=
        match chain user u_plan_expiry with
        | Some expiry => bool_decide (now < expiry)
        | None => false
        end in
      if negb (bool_decide (Js.toLowerCase (plan p ??! "")
                            = Js.toLowerCase (profilePlan ??! "")))
         && Js.truthy_opt profilePlan
      then ("change_plan", Some (plan p ??! "null"))
      else if negb activeSubscription
              && negb (bool_decide (Js.toLowerCase (profilePlan ??! "") = "free"))
      then ("past_due", change1)
      else ("regular", change1)
    else (reason1, change1) in
  {| inv_id := id p;
     inv_date := createdAt p;
     inv_amount := amount p;
     inv_currency := currency p;
     inv_status := status p;
     inv_reason := Some reason2;
     inv_change_to := change2;
     inv_plan := plan p;
     inv_raw := raw p |}.

(** The [seen] filter: the first invoice of every id. *)
Fixpoint dedupeById (seen : list Z) (l : list InvoiceDTO) : list InvoiceDTO :=
  match l with
  | [] => []
  | inv :: l' =>
      if bool_decide (inv_id inv ∈ seen) then dedupeById seen l'
      else inv :: dedupeById (inv_id inv :: seen) l'
  end.

Definition listInvoicesForUserCurated (st : Store) (users : gmap Z User) (now : Z)
    (userId : Z) (paidLimit : nat) : Result (list InvoiceDTO) :=
  match ensureValidUserId userId with
  | Throw e => Throw e
  | Ok uid =>
      let all := byCreatedDesc
                   (List.filter (fun p => bool_decide (user_id p = Some uid)) (rows st)) in
      let pendingRows := List.filter isPendingRow all in
      let paidRows := take paidLimit (List.filter isPaidRow all) in
      let merged := (map (buildInvoiceFromPayment users now uid) pendingRows
                     ++ map (buildInvoiceFromPayment users now uid) paidRows)%list in
      Ok (dedupeById [] merged)
  end.

(** ** The request handlers of deletion *)

(** [PaymentsController.deletePayment]: a payment that is not there is a 404. *)
Definition deletePayment (st : Store) (userId paymentId : Z) : Store * Result bool :=
  if bool_decide (userId = 0)
  then (st, Throw (BadRequestException "Invalid or missing user id"))
  else if bool_decide (paymentId = 0)
  then (st, Throw (BadRequestException "Invalid payment id"))
  else
    match deletePaymentForUser st userId paymentId with
    | (st', Ok true) => (st', Ok true)
    | (st', Ok false) => (st', Throw (NotFoundException "Payment not found"))
    | (st', Throw e) => (st', Throw e)
    end.

(** ** Writes to the table

    The three ways in which the operations change the table. *)

(** What an update of a loaded row leaves alone. *)
Definition keeps (p upd : Payment) : Prop :=
  id upd = id p /\ user_id upd = user_id p /\ plan upd = plan p /\
  billingPeriod upd = billingPeriod p.

Inductive writes (st : Store) : Store -> Prop :=
| writes_save (p upd : Payment) :
    In p (rows st) -> keeps p upd -> writes st (fst (save st upd))
| writes_insert (v : Payment) :
    writes st (fst (insert_row st v))
| writes_delete (f : Payment -> bool) :
    writes st {| rows := List.filter f (rows st); next_id := next_id st |}.

(** The assignments of [handleWebhook] on a row it settles from the
    re-fetched order. *)
Definition settledBy (order : Order) (payment : Payment) : Payment :=
  set_raw (RawOrder order)
  (set_payerName (payerNameOf order (payerName payment))
  (set_payerEmail (payerEmailOf order ?? payerEmail payment)
  (set_status (Js.toLowerCase
                 (chain (captureOf order) cap_status ?? o_status order ??! status payment))
  (set_paypalCaptureId (captureIdOf order ?? paypalCaptureId payment) payment)))).




(** A result set in the order [created_at DESC]. *)
Fixpoint newestFirst (l : list Payment) : Prop :=
  match l with
  | [] => True
  | p :: l' => (forall q, In q l' -> createdAt q <= createdAt p) /\ newestFirst l'
  end.

(** An invoice of a settled payment. *)
Definition isPaidInvoice (inv : InvoiceDTO) : bool :=
  bool_decide (Js.toLowerCase (inv_status inv) ∈ paidStatuses).

(** ** Further cases *)

Module Cases.

(** A request of owner 42 that carries no creation time: the clock of
    the server decides the minute. *)
Definition clockCall : PendingArgs :=
  {| pa_userId := 42; pa_plan := Some "Pro"; pa_billingPeriod := Some "monthly";
     pa_amount := None; pa_clientTempId := Some "temp-abc123";
     pa_createdAt := None; pa_reason := None |}.

(** The order ORDER-1 as the gateway reports it once captured. *)
Definition paidOrder : Order :=
  Scenario.orderWith "CAP-1" "COMPLETED" 1299 Scenario.t0.


(** A gateway that opens the order [oid] for every request. *)
Definition orderGateway (oid : string) : Z -> string -> option (option string) :=
  fun _ _ => Some (Some oid).


(** An event the reconciler does not handle. *)
Definition billingEvent : Event :=
  {| event_type := Some "BILLING.SUBSCRIPTION.CREATED"; e_type := None;
     resource := None |}.

Definition captureCompleted : Event :=
  Scenario.eventForOrder "PAYMENT.CAPTURE.COMPLETED" "ORDER-1".

Definition users8 : gmap Z User := {[ 8 := Scenario.freeUser ]}.

End Cases.

(** * Properties *)

(** ** Queries *)

Lemma latest_in l p : latest l = Some p -> In p l.
Proof.
  revert p. induction l as [|a l IH]; simpl; intros p H; [discriminate|].
  destruct (latest l) as [b|] eqn:E.
  - case_bool_decide; inversion H; subst; auto.
  - inversion H; auto.
Qed.

Lemma latest_none l : latest l = None -> l = [].
Proof.
  destruct l as [|a l]; simpl; [reflexivity|].
  destruct (latest l); [case_bool_decide|]; discriminate.
Qed.

Lemma latest_newest l p q : latest l = Some p -> In q l -> createdAt q <= createdAt p.
Proof.
  revert p q. induction l as [|a l IH]; simpl; intros p q H Hq; [contradiction|].
  destruct (latest l) as [b|] eqn:E.
  - case_bool_decide; inversion H; subst; destruct Hq as [<-|Hq];
      try lia; specialize (IH _ _ eq_refl Hq); lia.
  - inversion H; subst. apply latest_none in E. subst l.
    destruct Hq as [<-|[]]. lia.
Qed.

Lemma findLatest_some P st p :
  findLatest P st = Some p -> In p (rows st) /\ P p = true.
Proof. intros H. apply latest_in in H. apply filter_In in H. exact H. Qed.

Lemma findLatest_none P st q :
  findLatest P st = None -> In q (rows st) -> P q = false.
Proof.
  intros H Hq. apply latest_none in H.
  destruct (P q) eqn:E; [|reflexivity].
  assert (In q (List.filter P (rows st))) as Hin by (apply filter_In; auto).
  rewrite H in Hin. destruct Hin.
Qed.

Lemma findLatest_found P st q :
  In q (rows st) -> P q = true -> exists p, findLatest P st = Some p.
Proof.
  intros Hq HP. destruct (findLatest P st) as [p|] eqn:E; [eauto|].
  rewrite (findLatest_none _ _ _ E Hq) in HP. discriminate.
Qed.

Lemma findOne_some P st p : findOne P st = Some p -> In p (rows st) /\ P p = true.
Proof. apply find_some. Qed.

(** ** The store *)

Lemma insert_row_ok st v st' r :
  insert_row st v = (st', Ok r) ->
  existsb (conflicts v) (rows st) = false /\
  r = set_id (next_id st) v /\
  rows st' = (rows st ++ [r])%list /\ next_id st' = next_id st + 1.
Proof.
  unfold insert_row. destruct (existsb _ _); intros H; inversion H; subst; auto.
Qed.

Lemma insert_row_throw st v st' e :
  insert_row st v = (st', Throw e) ->
  existsb (conflicts v) (rows st) = true /\ st' = st /\
  e = QueryFailedError pgUniqueViolationCode.
Proof.
  unfold insert_row. destruct (existsb _ _); intros H; inversion H; subst; auto.
Qed.

Lemma insert_row_rows st v p :
  In p (rows (fst (insert_row st v))) -> In p (rows st) \/ p = set_id (next_id st) v.
Proof.
  unfold insert_row. destruct (existsb _ _); cbn [fst rows]; auto.
  intros Hx. apply in_app_or in Hx as [Hx|[<-|[]]]; auto.
Qed.

Lemma replace_row_in q l p : In p (replace_row q l) -> In p l \/ p = q.
Proof.
  unfold replace_row. intros H. apply in_map_iff in H as (x & Hx & Hin).
  destruct (has_id (id q) x); subst; auto.
Qed.

Lemma save_rows st q p :
  In p (rows (fst (save st q))) -> In p (rows st) \/ p = q.
Proof.
  unfold save. destruct (existsb _ _); [auto|].
  destruct (existsb _ _); cbn [fst rows].
  - apply replace_row_in.
  - intros Hx. apply in_app_or in Hx as [Hx|[<-|[]]]; auto.
Qed.

Lemma same_key_sym {K} `{EqDecision K} (a b : option K) : same_key a b = same_key b a.
Proof.
  destruct a as [x|], b as [y|]; simpl; try reflexivity.
  apply bool_decide_ext. split; congruence.
Qed.

Lemma conflicts_sym p q : conflicts p q = conflicts q p.
Proof.
  unfold conflicts.
  now rewrite (same_key_sym (paypalOrderId p)), (same_key_sym (paypalCaptureId p)),
    (same_key_sym (key_user_plan_minute p)).
Qed.

Lemma pairwise_ok_snoc l r :
  pairwise_ok l = true ->
  forallb (fun p => negb (has_id (id p) r) && negb (conflicts p r)) l = true ->
  pairwise_ok (l ++ [r]) = true.
Proof.
  induction l as [|p l IH]; simpl; intros Hl Hr; [reflexivity|].
  apply andb_true_iff in Hl as [Hp Hl]. apply andb_true_iff in Hr as [Hpr Hr].
  rewrite forallb_app, Hp, (IH Hl Hr). simpl. now rewrite Hpr.
Qed.

(** The indexes survive an insertion. *)
Lemma insert_row_store_ok st v st' r :
  store_ok st -> insert_row st v = (st', Ok r) -> store_ok st'.
Proof.
  intros [Hpw Hids] H. apply insert_row_ok in H as (Hno & -> & Hrows & Hnext).
  unfold store_ok. rewrite Hrows, Hnext. split.
  - apply pairwise_ok_snoc; [exact Hpw|].
    apply forallb_forall. intros p Hp.
    rewrite forallb_forall in Hids. specialize (Hids p Hp).
    apply bool_decide_eq_true in Hids.
    assert (conflicts v p = false) as Hc.
    { destruct (conflicts v p) eqn:E; [|reflexivity].
      assert (existsb (conflicts v) (rows st) = true) as Hex
        by (apply existsb_exists; eauto).
      congruence. }
    apply andb_true_iff. split; apply negb_true_iff.
    + unfold has_id. apply bool_decide_eq_false. simpl. lia.
    + rewrite conflicts_sym. exact Hc.
  - rewrite forallb_app. apply andb_true_iff. split.
    + apply forallb_forall. intros p Hp.
      rewrite forallb_forall in Hids. specialize (Hids p Hp).
      apply bool_decide_eq_true in Hids. apply bool_decide_eq_true. lia.
    + simpl. rewrite bool_decide_eq_true_2 by lia. reflexivity.
Qed.

Lemma pairwise_ok_find_id l p :
  pairwise_ok l = true -> In p l -> List.find (has_id (id p)) l = Some p.
Proof.
  induction l as [|q l IH]; simpl; intros Hl Hin; [destruct Hin|].
  apply andb_true_iff in Hl as [Hq Hl].
  destruct Hin as [->|Hin].
  - unfold has_id at 1. now rewrite bool_decide_eq_true_2.
  - rewrite forallb_forall in Hq. specialize (Hq p Hin).
    apply andb_true_iff in Hq as [Hq _]. apply negb_true_iff in Hq.
    unfold has_id in *. apply bool_decide_eq_false in Hq.
    rewrite bool_decide_eq_false_2 by congruence. apply IH; assumption.
Qed.

Lemma findOne_has_id st p :
  store_ok st -> In p (rows st) -> findOne (has_id (id p)) st = Some p.
Proof. intros [Hpw _] Hin. now apply pairwise_ok_find_id. Qed.

Lemma pairwise_ok_id_inj l p q :
  pairwise_ok l = true -> In p l -> In q l -> id p = id q -> p = q.
Proof.
  intros Hl Hp Hq Hid.
  pose proof (pairwise_ok_find_id l p Hl Hp) as H1.
  pose proof (pairwise_ok_find_id l q Hl Hq) as H2.
  rewrite Hid in H1. congruence.
Qed.

Lemma store_ok_id_lt st p : store_ok st -> In p (rows st) -> id p < next_id st.
Proof.
  intros [_ H] Hin. rewrite forallb_forall in H.
  specialize (H p Hin). now apply bool_decide_eq_true in H.
Qed.

Lemma pending_lowercase s : s ∈ pendingStatuses -> Js.toLowerCase s = s.
Proof.
  unfold pendingStatuses. intros H.
  repeat (apply elem_of_cons in H as [->|H]; [reflexivity|]).
  now apply elem_of_nil in H.
Qed.

(** ** One bucket under concurrent requests *)

Section Bucket.
Variables (uid : Z) (planName billing : string) (minute : Z).
Hypothesis Huid : uid <> 0.
Hypothesis Hbilling : billing <> "".

Local Abbreviation inB := (inBucket uid planName billing minute).
Local Abbreviation same_bucket := (Inv.same_bucket uid planName billing minute).
Local Abbreviation occupied := (Inv.occupied uid planName billing minute).
Local Abbreviation crowd := (Inv.crowd uid planName billing minute).
Local Abbreviation all_pending_like := (Inv.all_pending_like uid planName billing minute).
Local Abbreviation all_pending := (Inv.all_pending uid planName billing minute).
Local Abbreviation bucket_row := (Inv.bucket_row uid planName billing minute).
Local Abbreviation pc_ok := (Inv.pc_ok uid planName billing minute).
Local Abbreviation bucket_inv := (Inv.bucket_inv uid planName billing minute).

Lemma inBucket_key p :
  inB p = true <-> key_user_plan_minute p = Some (uid, planName, billing, minute).
Proof using Huid Hbilling.
  unfold inBucket, coalesce_user, billing_matches, key_user_plan_minute.
  rewrite (bool_decide_eq_false_2 (billing = "")) by assumption.
  rewrite !andb_true_iff, !bool_decide_eq_true. split.
  - intros [[[Hu Hp] Hm] Hb].
    destruct (user_id p) as [u|]; simpl in Hu; [|congruence].
    rewrite Hp, Hm, Hb. congruence.
  - intros H.
    destruct (user_id p), (plan p), (billingPeriod p), (createdAtMinute p);
      try discriminate.
    inversion H; subst; auto.
Qed.

Lemma grows_refl st : Inv.grows st st.
Proof. exists []. split; [now rewrite app_nil_r|intros q []]. Qed.

Lemma grows_trans st1 st2 st3 : Inv.grows st1 st2 -> Inv.grows st2 st3 -> Inv.grows st1 st3.
Proof.
  intros [l1 [H1 P1]] [l2 [H2 P2]]. exists (l1 ++ l2)%list. split.
  - now rewrite H2, H1, app_assoc.
  - intros q Hq. apply in_app_or in Hq as [Hq|Hq]; auto.
Qed.

Lemma grows_in st st' q : Inv.grows st st' -> In q (rows st) -> In q (rows st').
Proof. intros [l [Hl _]] Hq. rewrite Hl. apply in_or_app. now left. Qed.

Lemma occupied_grows st st' : Inv.grows st st' -> occupied st -> occupied st'.
Proof. intros Hg [q [Hq Hb]]. exists q. eauto using grows_in. Qed.

Lemma all_pending_like_shrinks st st' :
  Inv.grows st st' -> all_pending_like st' -> all_pending_like st.
Proof. intros Hg H q Hq Hb. apply H; eauto using grows_in. Qed.

Lemma all_pending_like_grows st st' :
  Inv.grows st st' -> all_pending_like st -> all_pending_like st'.
Proof.
  intros [l [Hl Hp]] H q Hq Hb. rewrite Hl in Hq.
  apply in_app_or in Hq as [Hq|Hq]; [now apply H|].
  unfold isPending. rewrite (Hp q Hq). reflexivity.
Qed.

Lemma all_pending_grows st st' : Inv.grows st st' -> all_pending st -> all_pending st'.
Proof.
  intros [l [Hl Hp]] H q Hq Hb. rewrite Hl in Hq.
  apply in_app_or in Hq as [Hq|Hq]; [now apply H|now apply Hp].
Qed.

Lemma bucket_row_grows st st' inv :
  Inv.grows st st' -> bucket_row st inv -> bucket_row st' inv.
Proof. intros Hg (q & Hq & Hb & ->). exists q. eauto using grows_in. Qed.

Lemma pc_ok_grows st st' th : Inv.grows st st' -> pc_ok st th -> pc_ok st' th.
Proof.
  unfold Inv.pc_ok. intros Hg.
  destruct (th_pc th) as [| | |ins| | |[inv|e]]; auto.
  - intros H Hl. eapply all_pending_grows; eauto using all_pending_like_shrinks.
  - intros [Hin Hb]. eauto using grows_in.
  - intros [Ho H]. split; [eauto using occupied_grows|].
    intros Hl. eapply all_pending_grows; eauto using all_pending_like_shrinks.
  - intros [Ho H]. split; [eauto using occupied_grows|].
    intros Hl. eauto using all_pending_like_shrinks.
  - intros [Ho H]. split; [eauto using occupied_grows|].
    intros Hl. eapply bucket_row_grows; eauto using all_pending_like_shrinks.
Qed.

Lemma occupied_crowd st : occupied st -> (1 <= crowd st)%nat.
Proof.
  intros [q [Hq Hb]]. unfold Inv.crowd, bucketRows.
  assert (In q (List.filter inB (rows st))) as Hin by (apply filter_In; auto).
  destruct (List.filter _ _); [destruct Hin | simpl; lia].
Qed.

Lemma occupied_by st q : In q (rows st) -> inB q = true -> occupied st.
Proof. intros. exists q. auto. Qed.

Lemma insertObj_key th :
  same_bucket th ->
  key_user_plan_minute (pa_insertObj (th_now th) (th_args th))
    = Some (uid, planName, billing, minute).
Proof using Hbilling.
  intros (Hu & Hp & Hb & Hm). unfold key_user_plan_minute. simpl.
  rewrite Hb, (bool_decide_eq_false_2 (billing = "")) by assumption.
  now rewrite Hu, Hp, Hm.
Qed.

(** A request that is let in leaves exactly its own row in the bucket. *)
Lemma insert_row_bucket th st st' r :
  same_bucket th ->
  insert_row st (pa_insertObj (th_now th) (th_args th)) = (st', Ok r) ->
  crowd st' = 1%nat /\ In r (rows st') /\ inB r = true /\ Inv.grows st st'.
Proof using Huid Hbilling.
  intros Hsb H. apply insert_row_ok in H as (Hno & -> & Hrows & _).
  pose proof (insertObj_key th Hsb) as Hkey.
  set (v := pa_insertObj (th_now th) (th_args th)) in *.
  assert (Hr : inB (set_id (next_id st) v) = true)
    by (apply inBucket_key; exact Hkey).
  assert (Hempty : bucketRows uid planName billing minute st = []).
  { unfold bucketRows.
    destruct (List.filter _ (rows st)) as [|q l] eqn:E; [reflexivity|exfalso].
    assert (In q (q :: l)) as Hq by (left; reflexivity).
    rewrite <- E in Hq. apply filter_In in Hq as [Hq Hb].
    apply inBucket_key in Hb.
    assert (existsb (conflicts v) (rows st) = true) as Hc.
    { apply existsb_exists. exists q. split; [exact Hq|].
      unfold conflicts. rewrite Hkey, Hb. simpl.
      rewrite bool_decide_eq_true_2 by reflexivity. now rewrite ?orb_true_r. }
    congruence. }
  split; [|split; [|split]].
  - unfold Inv.crowd, bucketRows in *. rewrite Hrows, List.filter_app, Hempty.
    simpl. now rewrite Hr.
  - rewrite Hrows. apply in_or_app. right. now left.
  - exact Hr.
  - eexists. split; [exact Hrows|]. intros q [<-|[]]. reflexivity.
Qed.

(** A request that is turned away was turned away by a row of its bucket. *)
Lemma insert_row_rejected th st st' e :
  same_bucket th ->
  insert_row st (pa_insertObj (th_now th) (th_args th)) = (st', Throw e) ->
  st' = st /\ occupied st /\ isUniqueViolation e = true.
Proof using Huid Hbilling.
  intros Hsb H. apply insert_row_throw in H as (Hc & -> & ->).
  split; [reflexivity|]. split; [|reflexivity].
  apply existsb_exists in Hc as [q [Hq Hc]]. exists q. split; [exact Hq|].
  apply inBucket_key. unfold conflicts in Hc.
  rewrite (insertObj_key th Hsb) in Hc. simpl in Hc.
  destruct (key_user_plan_minute q) as [k|]; [|discriminate].
  apply bool_decide_eq_true in Hc. congruence.
Qed.

Lemma fallback_finds th st :
  same_bucket th -> occupied st ->
  exists p, fallbackLookup st (pa_userId (th_args th)) (pa_planName (th_args th)) = Some p.
Proof using Huid Hbilling.
  intros (Hu & Hp & _) [q [Hq Hb]]. unfold fallbackLookup.
  apply (findLatest_found _ _ q Hq).
  apply inBucket_key in Hb. unfold key_user_plan_minute in Hb.
  destruct (user_id q), (plan q), (billingPeriod q), (createdAtMinute q);
    try discriminate.
  inversion Hb as [[H1 H2 H3 H4]]. rewrite Hu, Hp.
  now rewrite !bool_decide_eq_true_2 by reflexivity.
Qed.

Lemma lookup_hit th st inv :
  same_bucket th ->
  findExistingPending st (th_now th) (pa_userId (th_args th))
    (Some (pa_planName (th_args th))) (Some (pa_billing (th_args th)))
    (Some (pa_nowIso (th_now th) (th_args th))) = Ok (Some inv) ->
  bucket_row st inv.
Proof.
  intros (Hu & Hp & Hb & Hm). unfold findExistingPending.
  destruct (ensureValidUserId _) as [u|] eqn:Ev; [|discriminate].
  unfold ensureValidUserId in Ev. case_bool_decide; [discriminate|].
  inversion Ev; subst u. simpl.
  destruct (findLatest _ st) as [f|] eqn:E; [|discriminate]. intros Hinv.
  apply findLatest_some in E as [Hin HP]. apply andb_true_iff in HP as [HP _].
  exists f. split; [exact Hin|]. split; [|congruence].
  unfold pa_minuteBucket in Hm. now rewrite <- Hu, <- Hp, <- Hb, <- Hm.
Qed.

Lemma lookup_miss th st r :
  same_bucket th ->
  findExistingPending st (th_now th) (pa_userId (th_args th))
    (Some (pa_planName (th_args th))) (Some (pa_billing (th_args th)))
    (Some (pa_nowIso (th_now th) (th_args th))) = r ->
  (forall inv, r <> Ok (Some inv)) ->
  all_pending_like st -> all_pending st.
Proof using Huid.
  intros (Hu & Hp & Hb & Hm). unfold findExistingPending, ensureValidUserId.
  rewrite bool_decide_eq_false_2 by congruence. simpl.
  destruct (findLatest _ st) as [f|] eqn:E; intros <- Hr; [now destruct (Hr _ eq_refl)|].
  intros Hl q Hq HB. exfalso.
  pose proof (findLatest_none _ _ q E Hq) as Hno. simpl in Hno.
  unfold pa_minuteBucket in Hm. rewrite Hu, Hp, Hb, Hm in Hno.
  rewrite HB, (Hl q Hq HB) in Hno. discriminate.
Qed.

Lemma cpp_step_same_bucket st th :
  same_bucket th -> same_bucket (snd (cpp_step st th)).
Proof.
  unfold Inv.same_bucket. intros H.
  replace (th_args (snd (cpp_step st th))) with (th_args th);
    [replace (th_now (snd (cpp_step st th))) with (th_now th); [exact H|]|];
    unfold cpp_step; repeat case_match; reflexivity.
Qed.

(** One statement of one request keeps the bucket at one row at most. *)
Lemma cpp_step_inv st th :
  same_bucket th -> store_ok st -> pc_ok st th -> (crowd st <= 1)%nat ->
  store_ok (fst (cpp_step st th)) /\
  pc_ok (fst (cpp_step st th)) (snd (cpp_step st th)) /\
  (crowd (fst (cpp_step st th)) <= 1)%nat /\
  Inv.grows st (fst (cpp_step st th)).
Proof using Huid Hbilling.
  intros Hsb Hst Hpc Hcr. pose proof Hsb as (Hu & _).
  unfold cpp_step, Inv.pc_ok in *.
  destruct (th_pc th) as [| | |ins| | |r] eqn:Epc.
  - (* PcStart *)
    unfold ensureValidUserId. rewrite bool_decide_eq_false_2 by congruence.
    unfold upsertByClientTempId. simpl.
    destruct (pa_hasToken _); simpl; auto using grows_refl.
  - (* PcLookup *)
    destruct (findExistingPending _ _ _ _ _ _) as [[inv|]|] eqn:E; simpl;
      (split; [exact Hst|]); (split; [|auto using grows_refl]).
    + apply (lookup_hit th) in E; [|exact Hsb].
      destruct E as (q & Hq & Hb & ->). split; [eauto using occupied_by|].
      intros _. exists q. auto.
    + eapply (lookup_miss th); eauto; congruence.
    + eapply (lookup_miss th); eauto; congruence.
  - (* PcInsert *)
    destruct (insert_row _ _) as [st2 [r|e]] eqn:E.
    + pose proof (insert_row_store_ok _ _ _ _ Hst E) as Hst2.
      apply (insert_row_bucket th) in E as (Hc & Hin & Hb & Hg); [|exact Hsb].
      simpl. split; [exact Hst2|]. split; [auto|]. split; [lia|exact Hg].
    + apply (insert_row_rejected th) in E as (-> & Ho & Hv); [|exact Hsb].
      rewrite Hv. simpl. auto using grows_refl.
  - (* PcReload *)
    destruct Hpc as [Hin Hb]. rewrite (findOne_has_id st ins Hst Hin). simpl.
    split; [exact Hst|]. split; [|auto using grows_refl].
    split; [eauto using occupied_by|]. intros _. exists ins. auto.
  - (* PcDuplicate *)
    destruct Hpc as [Ho Hp].
    destruct (duplicateLookup _ _ _ _ _) as [found|] eqn:E; simpl;
      (split; [exact Hst|]); (split; [|auto using grows_refl]);
      (split; [exact Ho|]).
    + intros _. apply findLatest_some in E as [Hin HP].
      apply andb_true_iff in HP as [HP _].
      destruct Hsb as (_ & Hp' & Hb' & Hm'). rewrite Hu, Hp', Hb', Hm' in HP.
      exists found. auto.
    + intros Hl. destruct Ho as [q [Hq Hb]].
      pose proof (findLatest_none _ _ q E Hq) as Hno. simpl in Hno.
      destruct Hsb as (_ & Hp' & Hb' & Hm'). rewrite Hu, Hp', Hb', Hm' in Hno.
      rewrite Hb, (Hp Hl q Hq Hb) in Hno. discriminate.
  - (* PcFallback *)
    destruct Hpc as [Ho Hn].
    destruct (fallback_finds th st Hsb Ho) as [p ->].
    simpl. split; [exact Hst|]. split; [|auto using grows_refl].
    split; [exact Ho|]. intros Hl. now destruct Hn.
  - (* PcDone *)
    simpl. rewrite Epc. auto using grows_refl.
Qed.

Lemma sys_step_inv i s0 s : bucket_inv s0 s -> bucket_inv s0 (sys_step i s).
Proof using Huid Hbilling.
  intros Hinv. pose proof Hinv as (Hst & Hcr & Hg0 & Hall). unfold sys_step.
  destruct (snd s !! i) as [th|] eqn:Ei; [|exact Hinv].
  pose proof (Forall_lookup_1 _ _ _ _ Hall Ei) as [Hsb Hpc].
  destruct (cpp_step_inv (fst s) th Hsb Hst Hpc Hcr) as (Hst' & Hpc' & Hcr' & Hg).
  pose proof (cpp_step_same_bucket (fst s) th Hsb) as Hsb'.
  destruct (cpp_step (fst s) th) as [st' th']. simpl in *.
  split; [exact Hst'|]. split; [exact Hcr'|].
  split; [eauto using grows_trans|].
  apply Forall_insert; [|auto].
  eapply Forall_impl; [exact Hall|].
  intros x [? ?]. split; [assumption|]. eapply pc_ok_grows; eauto.
Qed.

Lemma run_inv sched s0 s : bucket_inv s0 s -> bucket_inv s0 (run sched s).
Proof using Huid Hbilling.
  revert s. induction sched as [|i sched IH]; intros s Hs; simpl; [exact Hs|].
  apply IH, sys_step_inv, Hs.
Qed.

(** A well-formed table holds at most one row of the bucket. *)
Lemma pairwise_ok_crowd l :
  pairwise_ok l = true -> (List.length (List.filter inB l) <= 1)%nat.
Proof using Huid Hbilling.
  induction l as [|p l IH]; simpl; intros H; [lia|].
  apply andb_true_iff in H as [Hp Hl]. specialize (IH Hl).
  destruct (inB p) eqn:Ep; [|exact IH].
  simpl. apply inBucket_key in Ep.
  destruct (List.filter _ l) as [|q l'] eqn:E; [simpl; lia|exfalso].
  assert (In q (q :: l')) as Hq by (left; reflexivity).
  rewrite <- E in Hq. apply filter_In in Hq as [Hq Hb].
  apply inBucket_key in Hb.
  rewrite forallb_forall in Hp. specialize (Hp q Hq).
  apply andb_true_iff in Hp as [_ Hc]. apply negb_true_iff in Hc.
  unfold conflicts in Hc. rewrite Ep, Hb in Hc. simpl in Hc.
  rewrite bool_decide_eq_true_2 in Hc by reflexivity.
  rewrite !orb_true_r in Hc. discriminate.
Qed.

End Bucket.

(** ** Every request ends *)

Lemma cpp_step_rank st th :
  (Inv.rank (th_pc (snd (cpp_step st th))) <= Inv.rank (th_pc th) - 1)%nat.
Proof.
  unfold cpp_step.
  destruct (th_pc th) eqn:E; repeat case_match; simpl; try rewrite E; simpl; lia.
Qed.

Lemma sys_step_length i s : List.length (snd (sys_step i s)) = List.length (snd s).
Proof.
  unfold sys_step. destruct (snd s !! i); [|reflexivity].
  destruct (cpp_step _ _). simpl. apply length_insert.
Qed.

Lemma run_length sched s : List.length (snd (run sched s)) = List.length (snd s).
Proof.
  revert s. induction sched as [|i sched IH]; intros s; simpl; [reflexivity|].
  now rewrite IH, sys_step_length.
Qed.

Lemma spawn_length calls : List.length (spawn calls) = List.length calls.
Proof. unfold spawn. apply length_map. Qed.

Lemma sys_step_self i s :
  (Inv.left_to_run (sys_step i s) i <= Inv.left_to_run s i - 1)%nat.
Proof.
  unfold Inv.left_to_run, sys_step.
  destruct (snd s !! i) as [th|] eqn:Ei; [|rewrite Ei; lia].
  pose proof (cpp_step_rank (fst s) th) as Hr.
  destruct (cpp_step _ _) as [st' th']. simpl in *.
  rewrite list_lookup_insert_eq by (eapply lookup_lt_Some; eauto). exact Hr.
Qed.

Lemma sys_step_other i j s :
  i <> j -> Inv.left_to_run (sys_step i s) j = Inv.left_to_run s j.
Proof.
  intros Hij. unfold Inv.left_to_run, sys_step.
  destruct (snd s !! i) as [th|]; [|reflexivity].
  destruct (cpp_step _ _) as [st' th']. simpl.
  now rewrite list_lookup_insert_ne by exact Hij.
Qed.

Lemma sys_step_left i j s :
  (Inv.left_to_run (sys_step i s) j <= Inv.left_to_run s j)%nat.
Proof.
  destruct (decide (i = j)) as [->|Hij].
  - pose proof (sys_step_self j s). lia.
  - rewrite sys_step_other by exact Hij. lia.
Qed.

Lemma run_left sched j s : (Inv.left_to_run (run sched s) j <= Inv.left_to_run s j)%nat.
Proof.
  revert s. induction sched as [|i sched IH]; intros s; simpl; [lia|].
  etransitivity; [apply IH|apply sys_step_left].
Qed.

Lemma run_repeat_self i n s :
  (Inv.left_to_run (run (repeat i n) s) i <= Inv.left_to_run s i - n)%nat.
Proof.
  revert s. induction n as [|n IH]; intros s; simpl; [lia|].
  etransitivity; [apply IH|]. pose proof (sys_step_self i s). lia.
Qed.

Lemma left_to_run_bound s j : (Inv.left_to_run s j <= cpp_max_steps)%nat.
Proof.
  unfold Inv.left_to_run, cpp_max_steps. destruct (snd s !! j) as [th|]; [|lia].
  destruct (th_pc th); simpl; lia.
Qed.

Lemma run_app s1 s2 s : run (s1 ++ s2) s = run s2 (run s1 s).
Proof. unfold run. apply fold_left_app. Qed.

Lemma drain_from_done k n s j :
  (k <= j < k + n)%nat ->
  Inv.left_to_run (run (flat_map (fun i => repeat i cpp_max_steps) (seq k n)) s) j = 0%nat.
Proof.
  revert k s. induction n as [|n IH]; intros k s Hj; [lia|].
  cbn [seq flat_map]. rewrite run_app.
  destruct (decide (j = k)) as [->|Hne].
  - pose proof (run_left (flat_map (fun i => repeat i cpp_max_steps) (seq (S k) n)) k
                  (run (repeat k cpp_max_steps) s)) as H1.
    pose proof (run_repeat_self k cpp_max_steps s) as H2.
    pose proof (left_to_run_bound s k). lia.
  - apply IH. lia.
Qed.

(** Whatever was scheduled before, after the drain every request is done. *)
Lemma drain_done sched s th :
  th ∈ snd (run (sched ++ drain (List.length (snd s))) s) -> is_done th = true.
Proof.
  intros Hin. apply list_elem_of_lookup in Hin as [j Hj].
  pose proof (lookup_lt_Some _ _ _ Hj) as Hlt.
  rewrite run_length in Hlt.
  rewrite run_app in Hj. unfold drain in Hj.
  pose proof (drain_from_done 0 (List.length (snd s)) (run sched s) j) as H0.
  unfold Inv.left_to_run in H0. rewrite Hj in H0.
  unfold is_done. destruct (th_pc th); simpl in H0; try reflexivity;
    (assert (0 <= j < 0 + List.length (snd s))%nat as Hr by lia; specialize (H0 Hr); lia).
Qed.

(** ** A request running alone *)

Lemma sys_step_single st th :
  sys_step 0 (st, [th]) = (fst (cpp_step st th), [snd (cpp_step st th)]).
Proof. unfold sys_step. cbn [fst snd lookup list_lookup]. now destruct (cpp_step st th). Qed.

Lemma cpp_step_done st a now r :
  cpp_step st {| th_args := a; th_now := now; th_pc := PcDone r |} =
  (st, {| th_args := a; th_now := now; th_pc := PcDone r |}).
Proof. reflexivity. Qed.

Ltac thread_step :=
  rewrite sys_step_single; unfold cpp_step at 1 2; unfold at_pc;
  cbn [th_pc th_args th_now fst snd].
Ltac thread_idle :=
  unfold at_pc; cbn [th_pc th_args th_now fst snd];
  repeat (rewrite sys_step_single, !cpp_step_done; cbn [fst snd]);
  reflexivity.

(** The statements of one thread, run without interruption, are the
    body of [createPendingPayment]. *)
Lemma createPendingPayment_alone st now a :
  run (repeat 0%nat cpp_max_steps) (st, spawn [(now, a)]) =
  (fst (createPendingPayment st now a),
   [{| th_args := a; th_now := now; th_pc := PcDone (snd (createPendingPayment st now a)) |}]).
Proof.
  unfold run, cpp_max_steps, spawn. cbn [repeat fold_left map fst snd].
  unfold createPendingPayment, createPendingPayment_insert.
  thread_step.
  destruct (ensureValidUserId (pa_userId a)) as [u|e] eqn:Eu; [|thread_idle].
  assert (u = pa_userId a) as ->
    by (unfold ensureValidUserId in Eu; case_bool_decide; congruence).
  unfold upsertByClientTempId. cbn [ux_payments_client_temp_id_unique].
  destruct (pa_hasToken a); cbn [fst snd];
    (thread_step;
     destruct (findExistingPending _ _ _ _ _ _) as [[inv|]|e]; [thread_idle| |];
     (thread_step;
      destruct (insert_row _ _) as [st2 [r|e']];
      [thread_step; destruct (findOne _ st2); thread_idle|];
      destruct (isUniqueViolation e');
      [thread_step; destruct (duplicateLookup _ _ _ _ _); [thread_idle|]|];
      thread_step; destruct (fallbackLookup _ _ _); thread_idle)).
Qed.

(** ** C1: idempotent provisional create *)

(** Where the unique index applies, that is for a non-empty billing
    period, provisional create is idempotent under concurrency.  Any
    number of [createPendingPayment] requests for one (owner, plan,
    billing period, minute bucket), run under any interleaving of their
    statements and then to their end, all return without error and leave
    exactly one row of that bucket in the table; if the rows the bucket
    held at the start were pending, every request returns that one row. *)
Theorem createPendingPayment_one_row_per_bucket
    (st : Store) (calls : list (Z * PendingArgs)) (sched : list nat)
    (uid : Z) (planName billing : string) (minute : Z) :
  store_ok st -> calls <> [] -> uid <> 0 -> billing <> "" ->
  Forall (fun c => call_bucket c = (uid, planName, billing, minute)) calls ->
  let s := run (sched ++ drain (List.length calls)) (st, spawn calls) in
  List.length (snd s) = List.length calls /\
  forallb returned (snd s) = true /\
  exists q,
    bucketRows uid planName billing minute (fst s) = [q] /\
    (Forall (fun p => isPending p = true) (bucketRows uid planName billing minute st) ->
     Forall (fun th => th_pc th = PcDone (Ok (invoiceShapeFromRow q))) (snd s)).
Proof.
  intros Hst Hcalls Huid Hbilling Hsame s.
  set (s0 := (st, spawn calls)) in *.
  assert (Hinv0 : Inv.bucket_inv uid planName billing minute s0 s0).
  { split; [exact Hst|]. split; [|split].
    - apply pairwise_ok_crowd; [assumption..|apply Hst].
    - apply grows_refl.
    - unfold s0, spawn. cbn [snd]. apply Forall_map.
      eapply Forall_impl; [exact Hsame|]. intros [now a] Hc.
      unfold call_bucket in Hc. cbn [fst snd] in Hc.
      inversion Hc as [[H1 H2 H3 H4]]. repeat split; reflexivity. }
  pose proof (run_inv uid planName billing minute Huid Hbilling
                (sched ++ drain (List.length calls)) s0 s0 Hinv0) as Hinv.
  fold s in Hinv. destruct Hinv as (Hst' & Hcr & Hg & Hall).
  assert (Hlen : List.length (snd s) = List.length calls)
    by (unfold s; rewrite run_length; apply spawn_length).
  assert (Hdone : forall th, th ∈ snd s -> is_done th = true).
  { assert (Hs : s = run (sched ++ drain (List.length (snd s0))) s0)
      by (unfold s, s0; cbn [snd]; now rewrite spawn_length).
    intros th Hth. apply (drain_done sched s0). now rewrite <- Hs. }
  assert (Hret : forall th, th ∈ snd s ->
            exists inv, th_pc th = PcDone (Ok inv) /\
              Inv.occupied uid planName billing minute (fst s) /\
              (Inv.all_pending_like uid planName billing minute (fst s) ->
               Inv.bucket_row uid planName billing minute (fst s) inv)).
  { intros th Hth. specialize (Hdone th Hth).
    rewrite Forall_forall in Hall. destruct (Hall th Hth) as [_ Hpc].
    unfold is_done in Hdone. unfold Inv.pc_ok in Hpc.
    destruct (th_pc th) as [| | | | | |[inv|e]]; try discriminate; [|destruct Hpc].
    exists inv. destruct Hpc. auto. }
  assert (Hone : exists q, bucketRows uid planName billing minute (fst s) = [q]).
  { destruct (snd s) as [|th ths] eqn:Eths.
    - destruct calls; [congruence|discriminate].
    - destruct (Hret th) as (inv & _ & Ho & _); [rewrite ?Eths; apply list_elem_of_here|].
      apply occupied_crowd in Ho. unfold Inv.crowd in *.
      destruct (bucketRows uid planName billing minute (fst s)) as [|q [|q' l]];
        simpl in *; try lia. eauto. }
  split; [exact Hlen|]. split.
  - apply forallb_forall. intros th Hth. apply list_elem_of_In in Hth.
    destruct (Hret th Hth) as (inv & Hpc & _). unfold returned. now rewrite Hpc.
  - destruct Hone as [q Hq]. exists q. split; [exact Hq|].
    intros Hpend. apply Forall_forall. intros th Hth.
    destruct (Hret th Hth) as (inv & Hpc & _ & Hrow).
    destruct Hrow as (q' & Hin & Hb & ->).
    + apply (all_pending_like_grows uid planName billing minute st); [exact Hg|].
      intros p Hp Hb. rewrite Forall_forall in Hpend. apply Hpend.
      apply list_elem_of_In. unfold bucketRows. apply filter_In. auto.
    + assert (In q' (bucketRows uid planName billing minute (fst s))) as Hq'
        by (unfold bucketRows; apply filter_In; auto).
      rewrite Hq in Hq'. destruct Hq' as [->|[]]. exact Hpc.
Qed.

(** Two requests of owner 42 for Pro/monthly within 10:15, interleaved. *)
Lemma createPendingPayment_one_row_per_bucket_witness :
  let calls := [Scenario.proCall "temp-abc123" Scenario.t0;
                Scenario.proCall "temp-abc124" (Scenario.t0 + 250)] in
  let s := run ([0; 1; 0; 1; 1; 0]%nat ++ drain (List.length calls))
               (emptyStore, spawn calls) in
  List.length (snd s) = List.length calls /\
  forallb returned (snd s) = true /\
  exists q,
    bucketRows 42 "Pro" "monthly" Scenario.minute0 (fst s) = [q] /\
    (Forall (fun p => isPending p = true)
            (bucketRows 42 "Pro" "monthly" Scenario.minute0 emptyStore) ->
     Forall (fun th => th_pc th = PcDone (Ok (invoiceShapeFromRow q))) (snd s)).
Proof.
  apply (createPendingPayment_one_row_per_bucket emptyStore
           [Scenario.proCall "temp-abc123" Scenario.t0;
            Scenario.proCall "temp-abc124" (Scenario.t0 + 250)]
           [0; 1; 0; 1; 1; 0]%nat 42 "Pro" "monthly" Scenario.minute0).
  - split; reflexivity.
  - discriminate.
  - lia.
  - discriminate.
  - repeat constructor.
Defined.


(** ** C2: an order id belongs to one row *)

Lemma attachOrderToPayment_conflict
    (st : Store) (now uid : Z) (p1 p2 : Payment) (orderID : string) (raw_arg : option Raw) :
  store_ok st -> In p1 (rows st) -> In p2 (rows st) -> p1 <> p2 ->
  paypalOrderId p1 = Some orderID ->
  uid <> 0 -> id p2 <> 0 -> user_id p2 = Some uid ->
  attachOrderToPayment st now uid (id p2) orderID raw_arg
    = (st, Throw (QueryFailedError pgUniqueViolationCode)).
Proof.
  intros Hst H1 H2 Hne Ho Huid Hid Hown.
  assert (Hids : id p1 <> id p2).
  { intros E. apply Hne. eapply pairwise_ok_id_inj; eauto. apply Hst. }
  unfold attachOrderToPayment, ensureValidUserId.
  rewrite !bool_decide_eq_false_2 by assumption.
  rewrite (findOne_has_id st p2 Hst H2).
  rewrite (bool_decide_eq_true_2 _ Hown). cbn [negb].
  match goal with |- context [save st ?p] => set (p4 := p) end.
  assert (Hp4 : id p4 = id p2 /\ paypalOrderId p4 = Some orderID).
  { unfold p4. destruct (raw_truthy raw_arg);
      match goal with |- context [raw_createdMeta ?r] => destruct (raw_createdMeta r) end;
      split; reflexivity. }
  destruct Hp4 as [Hi Hk]. unfold save.
  assert (existsb (fun q => negb (has_id (id p4) q) && conflicts p4 q) (rows st) = true)
    as ->; [|reflexivity].
  apply existsb_exists. exists p1. split; [exact H1|].
  apply andb_true_iff. split.
  - apply negb_true_iff. unfold has_id. apply bool_decide_eq_false. congruence.
  - unfold conflicts. rewrite Hk, Ho. cbn [same_key].
    now rewrite bool_decide_eq_true_2.
Qed.

(** The request handler reports the conflict to the client as a 500. *)
Lemma attachOrder_conflict_is_a_500
    (st : Store) (now uid : Z) (p1 p2 : Payment) (orderID : string) (raw_arg : option Raw) :
  store_ok st -> In p1 (rows st) -> In p2 (rows st) -> p1 <> p2 ->
  paypalOrderId p1 = Some orderID -> Js.blank orderID = false ->
  uid <> 0 -> id p2 <> 0 -> user_id p2 = Some uid ->
  attachOrder st now uid (id p2) orderID raw_arg
    = (st, Throw (HttpException500 "Failed to attach order to invoice")).
Proof.
  intros Hst H1 H2 Hne Ho Hb Huid Hid Hown. unfold attachOrder.
  rewrite !bool_decide_eq_false_2 by assumption. rewrite Hb.
  now rewrite (attachOrderToPayment_conflict st now uid p1 p2) by assumption.
Qed.

(** C2. When a row already holds an order id, attaching that order id to
    another row of the caller fails with the store's unique violation
    (SQLSTATE 23505), and the table, hence the first row and the order id
    it holds, is unchanged. *)
Theorem attachOrder_taken_order_id_conflict
    (st : Store) (now uid : Z) (p1 p2 : Payment) (orderID : string) (raw_arg : option Raw) :
  store_ok st -> In p1 (rows st) -> In p2 (rows st) -> p1 <> p2 ->
  paypalOrderId p1 = Some orderID ->
  uid <> 0 -> id p2 <> 0 -> user_id p2 = Some uid ->
  attachOrderToPayment st now uid (id p2) orderID raw_arg
    = (st, Throw (QueryFailedError pgUniqueViolationCode)) /\
  findOne (has_id (id p1)) (fst (attachOrderToPayment st now uid (id p2) orderID raw_arg))
    = Some p1.
Proof.
  intros Hst H1 H2 Hne Ho Huid Hid Hown.
  rewrite (attachOrderToPayment_conflict st now uid p1 p2) by assumption.
  split; [reflexivity|]. cbn [fst]. now apply findOne_has_id.
Qed.

(** Row 9001 holds ORDER-1; owner 42 tries to attach ORDER-1 to row 9002. *)
Lemma attachOrder_taken_order_id_conflict_witness :
  attachOrderToPayment Scenario.ledgerTwo Scenario.t0 42 9002 "ORDER-1" None
    = (Scenario.ledgerTwo, Throw (QueryFailedError pgUniqueViolationCode)) /\
  findOne (has_id 9001)
    (fst (attachOrderToPayment Scenario.ledgerTwo Scenario.t0 42 9002 "ORDER-1" None))
    = Some Scenario.attachedRow.
Proof.
  apply (attachOrder_taken_order_id_conflict Scenario.ledgerTwo Scenario.t0 42
           Scenario.attachedRow Scenario.otherRow "ORDER-1" None).
  - split; reflexivity.
  - simpl; auto.
  - simpl; auto.
  - discriminate.
  - reflexivity.
  - lia.
  - simpl; lia.
  - reflexivity.
Defined.

(** ** C3: status under webhooks and captures *)

(** Where the rows of the table come from after a webhook. *)
Lemma handleWebhook_rows env st users now event p' :
  In p' (rows (fst (handleWebhook env st users now event))) ->
  In p' (rows st) \/
  id p' = next_id st \/
  exists payment, In payment (rows st) /\ id p' = id payment /\
    (status p' = Js.toLowerCase (r_status (resource event ??! emptyResource) ??! status payment)
     \/ exists oid order,
          orderIdOf (resource event ??! emptyResource) = Some oid /\
          getOrderOnPayPal env oid = Some order /\
          status p' = Js.toLowerCase (reportedStatus order ??! status payment)).
Proof.
  unfold handleWebhook.
  destruct (eventTypeOf event) as [eventType|]; [|auto].
  destruct (negb (Js.truthy eventType)); [auto|].
  destruct (negb (bool_decide (eventType ∈ captureEventTypes))); [auto|].
  set (res := resource event ??! emptyResource).
  destruct (negb (Js.truthy_opt (orderIdOf res)) && Js.truthy_opt (r_id res)).
  { destruct (findOne _ st) as [payment|] eqn:Ef; [|auto].
    apply findOne_some in Ef as [Hin _]. cbn [fst]. intros H.
    apply save_rows in H as [H| ->]; [auto|].
    right; right. exists payment. auto. }
  destruct (orderIdOf res) as [oid|] eqn:Eo; [|auto].
  destruct (negb (Js.truthy oid)); [auto|].
  destruct (getOrderOnPayPal env oid) as [order|] eqn:Eg; [|auto].
  destruct (findOne _ st) as [payment|] eqn:Ef.
  { apply findOne_some in Ef as [Hin _]. cbn [fst]. intros H.
    apply save_rows in H as [H| ->]; [auto|].
    right; right. exists payment. split; [exact Hin|]. split; [reflexivity|].
    right. exists oid, order. auto. }
  destruct (heuristicCandidate _ _ _) as [cand|] eqn:Eh.
  - apply findLatest_some in Eh as [Hin _].
    destruct (hasOwner cand).
    + match goal with |- context [save st ?q] =>
        pose proof (save_rows st q p') as Hs; destruct (save st q) as [st' [saved|e]] end;
        cbn [fst] in *; intros H; apply Hs in H as [H| ->]; auto;
        right; right; exists cand; (split; [exact Hin|]); (split; [reflexivity|]);
        right; exists oid, order; auto.
    + cbn [fst]. intros H. apply insert_row_rows in H as [H| ->]; auto.
  - cbn [fst]. intros H. apply insert_row_rows in H as [H| ->]; auto.
Qed.

(** Where the rows of the table come from after a capture. *)
Lemma captureOrder_rows env st users now userId orderID p' :
  In p' (rows (fst (fst (captureOrder env st users now userId orderID)))) ->
  In p' (rows st) \/
  id p' = next_id st \/
  exists payment cr, In payment (rows st) /\ id p' = id payment /\
    captureOrderOnPayPal env orderID = Some cr /\
    status p' = Js.toLowerCase (reportedStatus cr ??! "COMPLETED").
Proof.
  unfold captureOrder.
  destruct (ensureValidUserId userId) as [uid|]; [|auto].
  destruct (negb (Js.truthy orderID)); [auto|].
  destruct (captureOrderOnPayPal env orderID) as [cr|] eqn:Eg; [|auto].
  match goal with |- context [match ?f with Some _ => save _ _ | None => insert_row _ _ end] =>
    destruct f as [payment|] eqn:Ef end.
  - assert (In payment (rows st)) as Hin.
    { destruct (findOne _ st) as [q|] eqn:E1.
      - inversion Ef; subst. now apply findOne_some in E1.
      - unfold tryAttachToPending, attachByOrder, attachByToken, attachByMinute,
          attachByUser in Ef.
        repeat match type of Ef with
        | context [findOne ?P st] =>
            let E := fresh "E" in destruct (findOne P st) eqn:E;
            [apply findOne_some in E as [? _]|]
        | context [findLatest ?P st] =>
            let E := fresh "E" in destruct (findLatest P st) eqn:E;
            [apply findLatest_some in E as [? _]|]
        | context [match ?x with _ => _ end] => destruct x
        | context [if ?x then _ else _] => destruct x
        end; cbn in Ef; try discriminate; inversion Ef; subst; assumption. }
    match goal with |- context [save st ?q] =>
      pose proof (save_rows st q p') as Hs; destruct (save st q) as [st' [saved|e]] end;
      cbn [fst] in *; intros H; apply Hs in H as [H| ->]; auto;
      right; right; exists payment, cr; auto.
  - match goal with |- context [insert_row st ?v] =>
      pose proof (insert_row_rows st v p') as Hs;
      destruct (insert_row st v) as [st' [saved|e]] end;
      cbn [fst] in *; intros H; apply Hs in H as [H| ->]; auto.
Qed.

(** C3 (as amended). The status of a row is overwritten with the
    lower-cased status the gateway reports, without a look at the status
    the row holds.  So a row that is not pending is found pending after
    [handleWebhook] only if the re-fetched order (or, for an event without
    order id, the payload) reports a pending status, and after
    [captureOrder] only if the capture result reports one. *)
Theorem status_back_to_pending_only_from_gateway
    (env : Env) (st : Store) (users : gmap Z User) (now : Z)
    (event : Event) (userId : Z) (orderID : string) (p p' : Payment) :
  store_ok st -> In p (rows st) ->
  Js.toLowerCase (status p) ∉ pendingStatuses ->
  id p' = id p -> status p' ∈ pendingStatuses ->
  (In p' (rows (fst (handleWebhook env st users now event))) ->
     (exists oid order g,
        orderIdOf (resource event ??! emptyResource) = Some oid /\
        getOrderOnPayPal env oid = Some order /\
        reportedStatus order = Some g /\ Js.toLowerCase g ∈ pendingStatuses) \/
     (exists g,
        r_status (resource event ??! emptyResource) = Some g /\
        Js.toLowerCase g ∈ pendingStatuses)) /\
  (In p' (rows (fst (fst (captureOrder env st users now userId orderID)))) ->
     exists cr g,
       captureOrderOnPayPal env orderID = Some cr /\
       reportedStatus cr = Some g /\ Js.toLowerCase g ∈ pendingStatuses).
Proof.
  intros Hst Hp Hterm Hid Hpend.
  assert (Hold : forall q, In q (rows st) -> id p' = id q -> q = p).
  { intros q Hq E. eapply pairwise_ok_id_inj; eauto; [apply Hst|congruence]. }
  assert (Hnotold : ~ In p' (rows st)).
  { intros Hin. rewrite (Hold p' Hin eq_refl) in Hpend.
    apply Hterm. now rewrite pending_lowercase. }
  assert (Hnotnew : id p' <> next_id st).
  { pose proof (store_ok_id_lt st p Hst Hp). lia. }
  split; intros Hin.
  - apply handleWebhook_rows in Hin as [Hin|[Hin|(payment & Hq & Hi & Hs)]];
      [contradiction..|].
    rewrite (Hold payment Hq Hi) in Hs.
    destruct Hs as [Hs|(oid & order & Eo & Eg & Hs)].
    + right. destruct (r_status _) as [g|]; cbn in Hs.
      * exists g. split; [reflexivity|]. now rewrite <- Hs.
      * rewrite Hs in Hpend. contradiction.
    + left. destruct (reportedStatus order) as [g|] eqn:Er; cbn in Hs.
      * exists oid, order, g. repeat split; auto. now rewrite <- Hs.
      * rewrite Hs in Hpend. contradiction.
  - apply captureOrder_rows in Hin as [Hin|[Hin|(payment & cr & Hq & Hi & Eg & Hs)]];
      [contradiction..|].
    destruct (reportedStatus cr) as [g|] eqn:Er; cbn in Hs.
    + exists cr, g. repeat split; auto. now rewrite <- Hs.
    + rewrite Hs in Hpend. apply (bool_decide_eq_true_2 _) in Hpend.
      vm_compute in Hpend. discriminate.
Qed.

(** Row 9001 is settled; the gateway reports the capture of ORDER-1 as
    PENDING. *)
Lemma status_back_to_pending_only_from_gateway_witness :
  let env := Scenario.gatewayReturning
               (Scenario.orderWith "CAP-1" "PENDING" 1299 Scenario.t0) in
  let event := Scenario.eventForOrder "PAYMENT.CAPTURE.PENDING" "ORDER-1" in
  let p' := hd Scenario.settledRow
               (rows (fst (handleWebhook env Scenario.ledgerSettled ∅ Scenario.t0 event))) in
  (In p' (rows (fst (handleWebhook env Scenario.ledgerSettled ∅ Scenario.t0 event))) ->
     (exists oid order g,
        orderIdOf (resource event ??! emptyResource) = Some oid /\
        getOrderOnPayPal env oid = Some order /\
        reportedStatus order = Some g /\ Js.toLowerCase g ∈ pendingStatuses) \/
     (exists g,
        r_status (resource event ??! emptyResource) = Some g /\
        Js.toLowerCase g ∈ pendingStatuses)) /\
  (In p' (rows (fst (fst (captureOrder env Scenario.ledgerSettled ∅ Scenario.t0 42
                            "ORDER-1")))) ->
     exists cr g,
       captureOrderOnPayPal env "ORDER-1" = Some cr /\
       reportedStatus cr = Some g /\ Js.toLowerCase g ∈ pendingStatuses).
Proof.
  apply (status_back_to_pending_only_from_gateway
           (Scenario.gatewayReturning (Scenario.orderWith "CAP-1" "PENDING" 1299 Scenario.t0))
           Scenario.ledgerSettled ∅ Scenario.t0
           (Scenario.eventForOrder "PAYMENT.CAPTURE.PENDING" "ORDER-1") 42 "ORDER-1"
           Scenario.settledRow).
  - split; reflexivity.
  - simpl; auto.
  - apply (proj1 (bool_decide_eq_false _)). reflexivity.
  - reflexivity.
  - apply (proj1 (bool_decide_eq_true _)). reflexivity.
Defined.

(** C3 (counterexample). Row 9001 is settled ("completed").  A webhook for
    its order arrives while the gateway reports the capture as PENDING:
    the row is written back to "pending".  The same happens, with the
    gateway out of reach, for an envelope that names the capture instead
    of the order and carries the status PENDING itself. *)
Lemma webhook_moves_settled_row_back_to_pending :
  let env := Scenario.gatewayReturning
               (Scenario.orderWith "CAP-1" "PENDING" 1299 Scenario.t0) in
  let event := Scenario.eventForOrder "PAYMENT.CAPTURE.PENDING" "ORDER-1" in
  let st' := fst (handleWebhook env Scenario.ledgerSettled ∅ (Scenario.t0 + 60000) event) in
  let event2 := Scenario.eventForCapture "PAYMENT.CAPTURE.PENDING" "CAP-1" "PENDING" in
  let st2 := fst (handleWebhook Scenario.gatewayDown Scenario.ledgerSettled ∅
                    (Scenario.t0 + 60000) event2) in
  map (fun r => (id r, status r)) (rows Scenario.ledgerSettled) = [(9001, "completed")] /\
  map (fun r => (id r, status r)) (rows st') = [(9001, "pending")] /\
  forallb isPending (rows st') = true /\
  map (fun r => (id r, status r)) (rows st2) = [(9001, "pending")].
Proof. vm_compute. repeat split; reflexivity. Qed.

(** ** C4: redelivered capture and the plan expiry *)

(** C4 (the code at the failing input). Owner 42 captures ORDER-1 at
    10:15:07; the row becomes "completed" and the plan runs until thirty
    days later.  The same capture is delivered again one day later, with
    the row already terminal: the expiry is computed anew from the later
    clock and moves one day further. *)
Theorem captureOrder_redelivery_recomputes_expiry :
  let env := Scenario.gatewayReturning
               (Scenario.orderWith "CAP-1" "COMPLETED" 1299 Scenario.t0) in
  let first := captureOrder env Scenario.ledgerAttached
                 (Scenario.users42 Scenario.freeUser) Scenario.t0 42 "ORDER-1" in
  let again := captureOrder env (fst (fst first)) (snd (fst first))
                 (Scenario.t0 + Scenario.day) 42 "ORDER-1" in
  map (fun r => (id r, status r, paypalCaptureId r)) (rows (fst (fst first)))
    = [(9001, "completed", Some "CAP-1")] /\
  snd (fst first) !! 42
    = Some {| u_plan := Some "Pro";
              u_plan_expiry := Some (Scenario.t0 + 30 * Scenario.day) |} /\
  rows (fst (fst again)) = rows (fst (fst first)) /\
  snd (fst again) !! 42
    = Some {| u_plan := Some "Pro";
              u_plan_expiry := Some (Scenario.t0 + 31 * Scenario.day) |}.
Proof. vm_compute. repeat split; reflexivity. Qed.

(** ** C5: the minute + amount heuristic *)




(** ** C6: the webhook payload and the re-fetched order *)

(** C6 (as amended). For a capture-related event that carries a non-empty
    order id, nothing of the payload but the event type and the order id
    reaches the ledger: two such events with the same type and order id
    have the same effect, and when the re-fetch fails nothing is written.
    An event whose order id is empty and whose resource id is set is
    handled without the gateway: the row that holds the resource id as
    its capture id takes the status of the payload. *)
Theorem handleWebhook_uses_refetched_order
    (env : Env) (st : Store) (users : gmap Z User) (now : Z)
    (e1 e2 : Event) (oid : string) :
  eventTypeOf e1 = eventTypeOf e2 ->
  orderIdOf (resource e1 ??! emptyResource) = Some oid ->
  orderIdOf (resource e2 ??! emptyResource) = Some oid ->
  Js.truthy oid = true ->
  handleWebhook env st users now e1 = handleWebhook env st users now e2 /\
  (getOrderOnPayPal env oid = None -> handleWebhook env st users now e1 = (st, users)) /\
  (forall (e3 : Event) (ty c : string) (payment : Payment),
     eventTypeOf e3 = Some ty -> ty ∈ captureEventTypes ->
     Js.truthy_opt (orderIdOf (resource e3 ??! emptyResource)) = false ->
     r_id (resource e3 ??! emptyResource) = Some c -> Js.truthy c = true ->
     findOne (fun p => bool_decide (paypalCaptureId p = Some c)) st = Some payment ->
     handleWebhook env st users now e3
       = (fst (save st (set_raw (RawEvent e3)
                         (set_status
                            (Js.toLowerCase (r_status (resource e3 ??! emptyResource)
                                             ??! status payment))
                            payment))), users)).
Proof.
  intros Ht H1 H2 Htr. split; [|split].
  - unfold handleWebhook.
    rewrite Ht, H1, H2. cbn [Js.truthy_opt]. rewrite Htr. reflexivity.
  - intros Hdown. unfold handleWebhook.
    rewrite H1. cbn [Js.truthy_opt]. rewrite Htr, Hdown. cbn [negb andb].
    repeat case_match; reflexivity.
  - intros e3 ty c payment Hty Hin Hno Hc Hctr Hfind. unfold handleWebhook.
    rewrite Hty.
    assert (Js.truthy ty = true) as ->.
    { unfold captureEventTypes in Hin.
      repeat (apply elem_of_cons in Hin as [->|Hin]; [reflexivity|]).
      now apply elem_of_nil in Hin. }
    rewrite (bool_decide_eq_true_2 _ Hin), Hno, Hc. cbn [Js.truthy_opt].
    rewrite Hctr. cbn [negb andb]. now rewrite Hfind.
Qed.

(** Two envelopes for ORDER-1 that disagree on status and amount. *)
Lemma handleWebhook_uses_refetched_order_witness :
  let env := Scenario.gatewayReturning
               (Scenario.orderWith "CAP-1" "COMPLETED" 1299 Scenario.t0) in
  let st := Scenario.ledgerAttached in
  let e1 := Scenario.eventForOrder "PAYMENT.CAPTURE.COMPLETED" "ORDER-1" in
  let e2 := {| event_type := Some "PAYMENT.CAPTURE.COMPLETED"; e_type := None;
               resource := Some {| r_related_order_id := None;
                                   r_order_id := Some "ORDER-1";
                                   r_id := Some "CAP-X"; r_status := Some "DENIED";
                                   r_amount_value := Some 1 |} |} in
  handleWebhook env st ∅ Scenario.t0 e1 = handleWebhook env st ∅ Scenario.t0 e2 /\
  (getOrderOnPayPal env "ORDER-1" = None ->
   handleWebhook env st ∅ Scenario.t0 e1 = (st, ∅)) /\
  (forall (e3 : Event) (ty c : string) (payment : Payment),
     eventTypeOf e3 = Some ty -> ty ∈ captureEventTypes ->
     Js.truthy_opt (orderIdOf (resource e3 ??! emptyResource)) = false ->
     r_id (resource e3 ??! emptyResource) = Some c -> Js.truthy c = true ->
     findOne (fun p => bool_decide (paypalCaptureId p = Some c)) st = Some payment ->
     handleWebhook env st ∅ Scenario.t0 e3
       = (fst (save st (set_raw (RawEvent e3)
                         (set_status
                            (Js.toLowerCase (r_status (resource e3 ??! emptyResource)
                                             ??! status payment))
                            payment))), ∅)).
Proof.
  apply (handleWebhook_uses_refetched_order
           (Scenario.gatewayReturning (Scenario.orderWith "CAP-1" "COMPLETED" 1299 Scenario.t0))
           Scenario.ledgerAttached ∅ Scenario.t0
           (Scenario.eventForOrder "PAYMENT.CAPTURE.COMPLETED" "ORDER-1")
           {| event_type := Some "PAYMENT.CAPTURE.COMPLETED"; e_type := None;
              resource := Some {| r_related_order_id := None;
                                  r_order_id := Some "ORDER-1";
                                  r_id := Some "CAP-X"; r_status := Some "DENIED";
                                  r_amount_value := Some 1 |} |}
           "ORDER-1"); reflexivity.
Defined.

(** C6 (counterexample). An envelope whose order id is the empty string
    and whose resource id is CAP-1 reports DENIED.  The gateway cannot be
    reached, so nothing is re-fetched; row 9001, which holds CAP-1, takes
    the status of the payload. *)
Lemma webhook_without_order_id_trusts_payload :
  let event := Scenario.eventForCapture "PAYMENT.CAPTURE.DENIED" "CAP-1" "DENIED" in
  let st' := fst (handleWebhook Scenario.gatewayDown Scenario.ledgerSettled ∅
                    (Scenario.t0 + 60000) event) in
  getOrderOnPayPal Scenario.gatewayDown "CAP-1" = None /\
  map (fun r => (id r, status r)) (rows Scenario.ledgerSettled) = [(9001, "completed")] /\
  map (fun r => (id r, status r)) (rows st') = [(9001, "denied")] /\
  map raw (rows st') = [RawEvent event].
Proof. vm_compute. repeat split; reflexivity. Qed.

(** ** C7: a webhook that arrives first *)




(** ** C8: entitlement *)



(** ** C9: deletion *)

Lemma deletePaymentForUser_own_row st uid p :
  store_ok st -> uid <> 0 -> In p (rows st) -> id p <> 0 -> user_id p = Some uid ->
  deletePaymentForUser st uid (id p) = (delete_id st (id p), Ok true).
Proof.
  intros Hst Huid Hin Hid Hown. unfold deletePaymentForUser, ensureValidUserId.
  rewrite !bool_decide_eq_false_2 by assumption.
  rewrite (findOne_has_id st p Hst Hin).
  now rewrite (bool_decide_eq_true_2 _ Hown).
Qed.

Lemma delete_id_gone st p : ~ In p (rows (delete_id st (id p))).
Proof.
  unfold delete_id. cbn [rows]. intros Hp. apply filter_In in Hp as [_ Hp].
  unfold has_id in Hp. now rewrite bool_decide_eq_true_2 in Hp.
Qed.

Lemma deletePaymentForUser_removed st uid pid p :
  store_ok st -> In p (rows st) ->
  ~ In p (rows (fst (deletePaymentForUser st uid pid))) ->
  id p = pid /\ user_id p = Some uid.
Proof.
  intros Hst Hin. unfold deletePaymentForUser.
  destruct (ensureValidUserId uid) as [u|] eqn:Eu; [|now intros []].
  assert (u = uid) as ->
    by (unfold ensureValidUserId in Eu; case_bool_decide; congruence).
  case_bool_decide; [now intros []|].
  destruct (findOne _ st) as [q|] eqn:Eq; [|now intros []].
  destruct (bool_decide (user_id q = Some uid)) eqn:Eo; [|now intros []].
  cbn [negb fst delete_id rows]. intros Hno.
  assert (id p = pid) as Hid.
  { destruct (has_id pid p) eqn:E; [now apply bool_decide_eq_true in E|].
    destruct Hno. apply filter_In. now rewrite E. }
  split; [exact Hid|].
  rewrite <- Hid in Eq. rewrite (findOne_has_id st p Hst Hin) in Eq.
  inversion Eq; subst q. now apply bool_decide_eq_true in Eo.
Qed.

Lemma clearPendingForUser_removed st uid p :
  uid <> 0 -> In p (rows st) ->
  ~ In p (rows (fst (clearPendingForUser st uid))) <->
  user_id p = Some uid /\ status p ∈ pendingStatuses.
Proof.
  intros Huid Hin. unfold clearPendingForUser, ensureValidUserId.
  rewrite bool_decide_eq_false_2 by assumption. cbn [fst rows].
  unfold coalesce_user, isPending. split.
  - intros Hno.
    destruct (bool_decide (user_id p ??! 0 = uid) && bool_decide (status p ∈ pendingStatuses))
      eqn:E.
    + apply andb_true_iff in E as [Eu Es].
      apply bool_decide_eq_true in Eu, Es. split; [|exact Es].
      destruct (user_id p); simpl in Eu; congruence.
    + destruct Hno. apply filter_In. now rewrite E.
  - intros [Ho Hs] Hp. apply filter_In in Hp as [_ Hp].
    rewrite Ho in Hp. simpl in Hp. now rewrite !bool_decide_eq_true_2 in Hp.
Qed.

(** C9 (as amended). A row leaves the table through [deletePaymentForUser]
    only if it is the addressed row and belongs to the caller; a row of
    somebody else is refused and stays; the caller's own row is removed
    whatever its status.  [clearPendingForUser] removes exactly the
    caller's rows in a pending status. *)
Theorem delete_scope (st : Store) (uid pid : Z) (p : Payment) :
  store_ok st -> uid <> 0 -> In p (rows st) ->
  (~ In p (rows (fst (deletePaymentForUser st uid pid))) ->
     id p = pid /\ user_id p = Some uid) /\
  (id p = pid -> pid <> 0 -> user_id p <> Some uid ->
     deletePaymentForUser st uid pid
       = (st, Throw (ForbiddenException "Not allowed to delete this payment"))) /\
  (id p = pid -> pid <> 0 -> user_id p = Some uid ->
     snd (deletePaymentForUser st uid pid) = Ok true /\
     ~ In p (rows (fst (deletePaymentForUser st uid pid)))) /\
  (~ In p (rows (fst (clearPendingForUser st uid))) <->
     user_id p = Some uid /\ status p ∈ pendingStatuses).
Proof.
  intros Hst Huid Hin. split; [|split; [|split]].
  - now apply deletePaymentForUser_removed.
  - intros <- Hpid Hown. unfold deletePaymentForUser, ensureValidUserId.
    rewrite !bool_decide_eq_false_2 by assumption.
    rewrite (findOne_has_id st p Hst Hin).
    now rewrite (bool_decide_eq_false_2 _ Hown).
  - intros <- Hpid Hown.
    rewrite (deletePaymentForUser_own_row st uid p) by assumption.
    cbn [fst snd]. split; [reflexivity|apply delete_id_gone].
  - now apply clearPendingForUser_removed.
Qed.

(** Owners 7 and 8 each have a row; owner 7 addresses row 2. *)
Lemma delete_scope_witness :
  let st := Scenario.ledgerTwoOwners in
  let p := Scenario.rowOf8 in
  (~ In p (rows (fst (deletePaymentForUser st 7 2))) ->
     id p = 2 /\ user_id p = Some 7) /\
  (id p = 2 -> 2 <> 0 -> user_id p <> Some 7 ->
     deletePaymentForUser st 7 2
       = (st, Throw (ForbiddenException "Not allowed to delete this payment"))) /\
  (id p = 2 -> 2 <> 0 -> user_id p = Some 7 ->
     snd (deletePaymentForUser st 7 2) = Ok true /\
     ~ In p (rows (fst (deletePaymentForUser st 7 2)))) /\
  (~ In p (rows (fst (clearPendingForUser st 7))) <->
     user_id p = Some 7 /\ status p ∈ pendingStatuses).
Proof.
  apply (delete_scope Scenario.ledgerTwoOwners 7 2 Scenario.rowOf8).
  - split; reflexivity.
  - lia.
  - simpl; auto.
Defined.

(** C9 (counterexample). Row 9001 of owner 42 is settled ("completed");
    owner 42 deletes it, and the table is empty. *)
Lemma delete_removes_settled_row :
  isFinal Scenario.settledRow = true /\
  isPending Scenario.settledRow = false /\
  deletePaymentForUser Scenario.ledgerSettled 42 9001
    = ({| rows := []; next_id := 9002 |}, Ok true).
Proof. vm_compute. repeat split; reflexivity. Qed.

(** ** C10: the last resort of an authenticated capture *)



(** The capture of the scenario, evaluated: the Tutor row of owner 42 is
    now "completed" at 12.99 with CAP-5, and it is still the only row. *)
Lemma captureOrder_lands_on_unrelated_row :
  let cr := Scenario.orderWith "CAP-5" "COMPLETED" 1299 Scenario.t0 in
  let out := captureOrder (Scenario.gatewayReturning cr) Scenario.ledgerTutor
               (Scenario.users42 Scenario.freeUser) Scenario.t0 42 "ORDER-5" in
  map (fun r => (id r, plan r, amount r, paypalOrderId r, paypalCaptureId r, status r))
      (rows (fst (fst out)))
    = [(5, Some "Tutor", 1299, None, Some "CAP-5", "completed")].
Proof. vm_compute. reflexivity. Qed.

(** * Further properties of the service

    Properties of the operations that the code shows beyond the
    statements above: what failures leave behind, what repeated requests
    do, who can be changed by a capture or a webhook, and what the
    listings contain. *)

(** ** The minute bucket *)

(** X1. The minute bucket of an instant is the start of its minute: it is a
    whole number of minutes, at most one minute behind the instant, and
    two instants share it exactly when they fall in the same minute. *)
Theorem minute_bucket_is_start_of_minute (t t' : Z) :
  Js.setSeconds00 t mod 60000 = 0 /\
  Js.setSeconds00 t <= t < Js.setSeconds00 t + 60000 /\
  Js.setSeconds00 (Js.setSeconds00 t) = Js.setSeconds00 t /\
  (Js.setSeconds00 t = Js.setSeconds00 t' <-> t / 60000 = t' / 60000).
Proof.
  unfold Js.setSeconds00.
  pose proof (Z.mod_pos_bound t 60000 ltac:(lia)) as Ht.
  pose proof (Z.div_mod t 60000 ltac:(lia)) as Hd.
  pose proof (Z.div_mod t' 60000 ltac:(lia)) as Hd'.
  assert (E : t - t mod 60000 = 60000 * (t / 60000)) by lia.
  assert (E' : t' - t' mod 60000 = 60000 * (t' / 60000)) by lia.
  assert (M : (60000 * (t / 60000)) mod 60000 = 0)
    by (rewrite Z.mul_comm; apply Z.mod_mul; lia).
  rewrite E, E', M. repeat split; lia.
Qed.

(** ** Lower case *)

Lemma lower_ascii_idem c : Js.lower_ascii (Js.lower_ascii c) = Js.lower_ascii c.
Proof. destruct c as [[] [] [] [] [] [] [] []]; reflexivity. Qed.

Lemma toLowerCase_idem s : Js.toLowerCase (Js.toLowerCase s) = Js.toLowerCase s.
Proof.
  unfold Js.toLowerCase. induction s as [|c s IH]; simpl; [reflexivity|].
  now rewrite lower_ascii_idem, IH.
Qed.

(** ** Rows of a well-formed table *)




Lemma save_ok_in st p st' r : save st p = (st', Ok r) -> r = p /\ In p (rows st').
Proof.
  unfold save. destruct (existsb _ _); [discriminate|].
  destruct (existsb (has_id (id p)) (rows st)) eqn:E; intros H; inversion H; subst;
    (split; [reflexivity|]); cbn [rows].
  - apply existsb_exists in E as (q & Hq & Hh). unfold replace_row.
    apply in_map_iff. exists q. now rewrite Hh.
  - apply in_or_app. right. now left.
Qed.


(** ** Writes keep the table well-formed *)

Lemma save_throw st p st' e : save st p = (st', Throw e) -> st' = st.
Proof.
  unfold save. destruct (existsb _ _); [intros H; now inversion H|].
  destruct (existsb _ _); discriminate.
Qed.

Lemma replace_row_absent p l :
  forallb (fun q => negb (has_id (id p) q)) l = true -> replace_row p l = l.
Proof.
  induction l as [|q l IH]; simpl; intros H; [reflexivity|].
  apply andb_true_iff in H as [Hq Hl]. apply negb_true_iff in Hq.
  now rewrite Hq, (IH Hl).
Qed.

Lemma pairwise_ok_replace p l :
  pairwise_ok l = true ->
  (forall q, In q l -> id q <> id p -> conflicts p q = false) ->
  pairwise_ok (replace_row p l) = true.
Proof.
  induction l as [|q l IH]; simpl; intros Hl Hfree; [reflexivity|].
  apply andb_true_iff in Hl as [Hq Hl].
  destruct (has_id (id p) q) eqn:Eq.
  - apply bool_decide_eq_true in Eq.
    assert (Habs : forallb (fun r => negb (has_id (id p) r)) l = true).
    { apply forallb_forall. intros r Hr. rewrite forallb_forall in Hq.
      specialize (Hq r Hr). apply andb_true_iff in Hq as [Hq _].
      unfold has_id in *. now rewrite <- Eq. }
    fold (replace_row p l). rewrite (replace_row_absent p l Habs).
    apply andb_true_iff. split; [|exact Hl].
    apply forallb_forall. intros r Hr. rewrite forallb_forall in Habs.
    rewrite (Habs r Hr). simpl. apply negb_true_iff. apply Hfree; [now right|].
    specialize (Habs r Hr). apply negb_true_iff in Habs.
    unfold has_id in Habs. apply bool_decide_eq_false in Habs. congruence.
  - apply bool_decide_eq_false in Eq.
    apply andb_true_iff. split.
    + apply forallb_forall. intros r Hr. apply replace_row_in in Hr as [Hr| ->].
      * rewrite forallb_forall in Hq. now apply Hq.
      * apply andb_true_iff. split; apply negb_true_iff.
        -- unfold has_id. apply bool_decide_eq_false. congruence.
        -- rewrite conflicts_sym. apply Hfree; [now left|exact Eq].
    + apply IH; [exact Hl|]. intros r Hr. apply Hfree. now right.
Qed.

Lemma save_store_ok st p q :
  store_ok st -> In q (rows st) -> id p = id q -> store_ok (fst (save st p)).
Proof.
  intros Hst Hq Hid. pose proof Hst as [Hpw Hids]. unfold save.
  destruct (existsb (fun r => negb (has_id (id p) r) && conflicts p r) (rows st)) eqn:Ec;
    [exact Hst|].
  assert (existsb (has_id (id p)) (rows st) = true) as ->.
  { apply existsb_exists. exists q. split; [exact Hq|].
    unfold has_id. now rewrite bool_decide_eq_true_2. }
  cbn [fst]. split; cbn [rows next_id].
  - apply pairwise_ok_replace; [exact Hpw|]. intros r Hr Hne.
    destruct (conflicts p r) eqn:E; [|reflexivity].
    assert (existsb (fun r => negb (has_id (id p) r) && conflicts p r) (rows st) = true)
      as Hex; [|congruence].
    apply existsb_exists. exists r. split; [exact Hr|]. rewrite E.
    unfold has_id. now rewrite bool_decide_eq_false_2.
  - apply forallb_forall. intros r Hr. apply replace_row_in in Hr as [Hr| ->].
    + rewrite forallb_forall in Hids. now apply Hids.
    + apply bool_decide_eq_true. rewrite Hid. now apply store_ok_id_lt.
Qed.

Lemma insert_row_fst_store_ok st v : store_ok st -> store_ok (fst (insert_row st v)).
Proof.
  intros Hst. destruct (insert_row st v) as [st' [r|e]] eqn:E; cbn [fst].
  - eapply insert_row_store_ok; eauto.
  - now apply insert_row_throw in E as (_ & -> & _).
Qed.

Lemma pairwise_ok_filter f l : pairwise_ok l = true -> pairwise_ok (List.filter f l) = true.
Proof.
  induction l as [|p l IH]; simpl; intros H; [reflexivity|].
  apply andb_true_iff in H as [Hp Hl]. destruct (f p); [|now apply IH].
  simpl. rewrite (IH Hl), andb_true_r.
  apply forallb_forall. intros q Hq. apply filter_In in Hq as [Hq _].
  rewrite forallb_forall in Hp. now apply Hp.
Qed.

Lemma writes_store_ok st st' : writes st st' -> store_ok st -> store_ok st'.
Proof.
  intros [p upd Hp (Hid & _)|v|f] Hst.
  - eapply save_store_ok; eauto.
  - now apply insert_row_fst_store_ok.
  - destruct Hst as [Hpw Hids]. split; cbn [rows next_id].
    + now apply pairwise_ok_filter.
    + apply forallb_forall. intros q Hq. apply filter_In in Hq as [Hq _].
      rewrite forallb_forall in Hids. now apply Hids.
Qed.

Lemma rtc_writes_store_ok st st' : rtc writes st st' -> store_ok st -> store_ok st'.
Proof. induction 1; eauto using writes_store_ok. Qed.

(** A write leaves owner, plan and billing period of every row alone. *)
Lemma writes_keeps st st' p p' :
  writes st st' -> store_ok st -> In p (rows st) -> In p' (rows st') -> id p' = id p ->
  keeps p p'.
Proof.
  intros Hw Hst Hp Hp' Hid.
  assert (Hold : In p' (rows st) -> keeps p p').
  { intros Hin. assert (p' = p) as ->; [|repeat split].
    eapply pairwise_ok_id_inj; eauto. apply Hst. }
  destruct Hw as [q upd Hq Hk|v|f].
  - apply save_rows in Hp' as [Hin| ->]; [auto|].
    destruct Hk as (Hi & Hk). assert (q = p) as ->; [|now split].
    eapply pairwise_ok_id_inj; eauto; [apply Hst|congruence].
  - apply insert_row_rows in Hp' as [Hin| ->]; [auto|].
    pose proof (store_ok_id_lt st p Hst Hp). simpl in Hid. lia.
  - cbn [rows] in Hp'. apply filter_In in Hp' as [Hin _]. auto.
Qed.

Lemma writes_ids st st' p' :
  writes st st' -> store_ok st -> In p' (rows st') ->
  (exists p, In p (rows st) /\ id p = id p') \/ id p' = next_id st.
Proof.
  intros Hw Hst Hp'. destruct Hw as [q upd Hq (Hi & _)|v|f].
  - apply save_rows in Hp' as [Hin| ->]; eauto.
  - apply insert_row_rows in Hp' as [Hin| ->]; eauto.
  - cbn [rows] in Hp'. apply filter_In in Hp' as [Hin _]. eauto.
Qed.

Lemma writes_next_id st st' : writes st st' -> next_id st <= next_id st'.
Proof.
  intros [p upd _ _|v|f]; cbn [next_id]; try lia.
  - unfold save. repeat case_match; cbn [fst next_id]; lia.
  - unfold insert_row. case_match; cbn [fst next_id]; lia.
Qed.

Lemma rtc_writes_next_id st st' : rtc writes st st' -> next_id st <= next_id st'.
Proof. induction 1 as [|x y z Hxy _ IH]; [lia|]. apply writes_next_id in Hxy. lia. Qed.

Lemma keeps_refl p : keeps p p.
Proof. repeat split. Qed.

Lemma keeps_trans p q r : keeps p q -> keeps q r -> keeps p r.
Proof. unfold keeps. intros (?&?&?&?) (?&?&?&?). repeat split; congruence. Qed.

Lemma rtc_writes_keeps st st' p p' :
  rtc writes st st' -> store_ok st -> In p (rows st) -> In p' (rows st') ->
  id p' = id p -> keeps p p'.
Proof.
  intros Hrtc Hst Hp. revert p'. pattern st'.
  eapply rtc_ind_r; [| |exact Hrtc]; clear st' Hrtc.
  - intros p' Hp' Hid. assert (p' = p) as ->; [|apply keeps_refl].
    eapply pairwise_ok_id_inj; eauto. apply Hst.
  - intros st1 st2 Hrtc Hw IH p' Hp' Hid.
    pose proof (rtc_writes_store_ok _ _ Hrtc Hst) as Hst1.
    destruct (writes_ids _ _ _ Hw Hst1 Hp') as [(p1 & Hp1 & Hi1)|Hnew].
    + eapply keeps_trans; [apply (IH p1 Hp1); congruence|].
      eapply writes_keeps; eauto.
    + pose proof (store_ok_id_lt st p Hst Hp).
      pose proof (rtc_writes_next_id _ _ Hrtc). lia.
Qed.

Lemma save_writes st upd st' r p :
  save st upd = (st', r) -> In p (rows st) -> keeps p upd -> writes st st'.
Proof.
  intros E Hp Hk. replace st' with (fst (save st upd)) by now rewrite E.
  eapply writes_save; eauto.
Qed.

Lemma insert_row_writes st v st' r : insert_row st v = (st', r) -> writes st st'.
Proof.
  intros E. replace st' with (fst (insert_row st v)) by now rewrite E.
  apply writes_insert.
Qed.

Lemma attachBy_in st o c u p :
  attachByOrder st o ?? attachByToken st c ?? attachByMinute st c ?? attachByUser st u = Some p ->
  In p (rows st).
Proof.
  unfold attachByOrder, attachByToken, attachByMinute, attachByUser. intros Ef.
  repeat match type of Ef with
  | context [findOne ?P st] =>
      let E := fresh "E" in destruct (findOne P st) eqn:E;
      [apply findOne_some in E as [? _]|]
  | context [findLatest ?P st] =>
      let E := fresh "E" in destruct (findLatest P st) eqn:E;
      [apply findLatest_some in E as [? _]|]
  | context [match ?x with _ => _ end] => destruct x
  | context [if ?x then _ else _] => destruct x
  end; cbn in Ef; try discriminate; inversion Ef; subst; assumption.
Qed.

(** *** Every operation is a sequence of such writes *)

Lemma handleWebhook_writes env st users now event :
  rtc writes st (fst (handleWebhook env st users now event)).
Proof.
  unfold handleWebhook.
  destruct (eventTypeOf event) as [eventType|]; [|apply rtc_refl].
  destruct (negb (Js.truthy eventType)); [apply rtc_refl|].
  destruct (negb (bool_decide (eventType ∈ captureEventTypes))); [apply rtc_refl|].
  set (res := resource event ??! emptyResource).
  destruct (negb (Js.truthy_opt (orderIdOf res)) && Js.truthy_opt (r_id res)).
  { destruct (findOne _ st) as [payment|] eqn:Ef; [|apply rtc_refl].
    apply findOne_some in Ef as [Hin _]. cbn [fst].
    apply rtc_once. eapply writes_save; [exact Hin|repeat split]. }
  destruct (orderIdOf res) as [oid|] eqn:Eo; [|apply rtc_refl].
  destruct (negb (Js.truthy oid)); [apply rtc_refl|].
  destruct (getOrderOnPayPal env oid) as [order|] eqn:Eg; [|apply rtc_refl].
  destruct (findOne _ st) as [payment|] eqn:Ef.
  { apply findOne_some in Ef as [Hin _]. cbn [fst].
    apply rtc_once. eapply writes_save; [exact Hin|repeat split]. }
  destruct (heuristicCandidate _ _ _) as [cand|] eqn:Eh.
  - apply findLatest_some in Eh as [Hin _].
    destruct (hasOwner cand).
    + destruct (save st _) as [st' [saved|e]] eqn:Es; cbn [fst];
        apply rtc_once; eapply save_writes; eauto; repeat split.
    + cbn [fst]. apply rtc_once, writes_insert.
  - cbn [fst]. apply rtc_once, writes_insert.
Qed.

Lemma captureOrder_writes env st users now userId orderID :
  rtc writes st (fst (fst (captureOrder env st users now userId orderID))).
Proof.
  unfold captureOrder.
  destruct (ensureValidUserId userId) as [uid|]; [|apply rtc_refl].
  destruct (negb (Js.truthy orderID)); [apply rtc_refl|].
  destruct (captureOrderOnPayPal env orderID) as [cr|] eqn:Eg; [|apply rtc_refl].
  match goal with |- context [match ?f with Some _ => save _ _ | None => insert_row _ _ end] =>
    destruct f as [payment|] eqn:Ef end.
  - assert (In payment (rows st)) as Hin.
    { destruct (findOne _ st) as [q|] eqn:E1.
      - inversion Ef; subst. now apply findOne_some in E1.
      - unfold tryAttachToPending in Ef. cbn [Js.nullish] in Ef.
        eapply attachBy_in; eauto. }
    destruct (save st _) as [st' [saved|e]] eqn:Es; cbn [fst];
      apply rtc_once; eapply save_writes; eauto; repeat split.
  - destruct (insert_row st _) as [st' [saved|e]] eqn:Es; cbn [fst];
      apply rtc_once; eapply insert_row_writes; eauto.
Qed.

Lemma createPendingPayment_writes st now a :
  rtc writes st (fst (createPendingPayment st now a)).
Proof.
  unfold createPendingPayment, createPendingPayment_insert, upsertByClientTempId.
  cbn [ux_payments_client_temp_id_unique].
  destruct (ensureValidUserId _) as [uid|]; [|apply rtc_refl].
  destruct (pa_hasToken a);
    (destruct (findExistingPending _ _ _ _ _ _) as [[inv|]|e]; [apply rtc_refl| |]);
    (destruct (insert_row _ _) as [st2 [r|e']] eqn:Ei;
     [apply insert_row_writes in Ei|apply insert_row_writes in Ei]);
    repeat case_match; cbn [fst]; now apply rtc_once.
Qed.

Lemma attachOrderToPayment_writes st now userId paymentId orderID raw_arg :
  rtc writes st (fst (attachOrderToPayment st now userId paymentId orderID raw_arg)).
Proof.
  unfold attachOrderToPayment.
  destruct (ensureValidUserId userId) as [uid|]; [|apply rtc_refl].
  case_bool_decide; [apply rtc_refl|].
  destruct (findOne _ st) as [p|] eqn:Ef; [|apply rtc_refl].
  apply findOne_some in Ef as [Hin _].
  destruct (negb _); [apply rtc_refl|].
  destruct (save st _) as [st' [saved|e]] eqn:Es; cbn [fst];
    apply rtc_once; eapply save_writes; eauto;
    destruct (raw_truthy raw_arg);
    match goal with |- context [raw_createdMeta ?r] => destruct (raw_createdMeta r) end;
    repeat split.
Qed.

Lemma attachOrderPublic_writes st now orderID raw_arg rawPlan createdAt_ clientTempId_ :
  rtc writes st
    (fst (attachOrderPublic st now orderID raw_arg rawPlan createdAt_ clientTempId_)).
Proof.
  unfold attachOrderPublic.
  destruct (Js.blank orderID); [apply rtc_refl|].
  destruct (heuristicCandidate _ _ _) as [found|] eqn:Eh.
  - apply findLatest_some in Eh as [Hin _].
    destruct (hasOwner found).
    + destruct (save st _) as [st' [saved|e]] eqn:Es.
      * cbn [fst]. apply rtc_once. eapply save_writes; eauto. repeat split.
      * destruct (insert_row st _) as [st2 [r|e']] eqn:Ei; cbn [fst];
          apply rtc_once; eapply insert_row_writes; eauto.
    + destruct (insert_row st _) as [st2 [r|e']] eqn:Ei; cbn [fst];
        apply rtc_once; eapply insert_row_writes; eauto.
  - destruct (insert_row st _) as [st2 [r|e']] eqn:Ei; cbn [fst];
      apply rtc_once; eapply insert_row_writes; eauto.
Qed.

Lemma createOrder_writes gw st users now userId plan_ billingPeriod_ :
  rtc writes st (fst (createOrder gw st users now userId plan_ billingPeriod_)).
Proof.
  unfold createOrder.
  destruct (ensureValidUserId userId) as [uid|]; [|apply rtc_refl].
  case_bool_decide; [apply rtc_refl|].
  match goal with |- context [match ?r with Some found => (st, Ok found) | None => _ end] =>
    destruct r; [apply rtc_refl|] end.
  destruct (gw _ _) as [orderId|]; [|apply rtc_refl].
  destruct (negb (Js.truthy_opt orderId)); [apply rtc_refl|].
  destruct (insert_row st _) as [st1 [saved|e]] eqn:Ei.
  - cbn [fst]. eapply rtc_l; [eapply insert_row_writes; eauto|].
    apply rtc_once. apply (writes_save st1 saved); [|repeat split].
    apply insert_row_ok in Ei as (_ & _ & Hrows & _). rewrite Hrows.
    apply in_or_app. right. now left.
  - cbn [fst]. apply rtc_once. eapply insert_row_writes; eauto.
Qed.





(** X3. No operation moves a row to another owner, plan or billing period:
    a row that is anonymous stays anonymous. *)
Theorem rows_keep_their_owner
    (env : Env) (gw : Z -> string -> option (option string))
    (st : Store) (users : gmap Z User) (now userId paymentId : Z)
    (orderID plan_ : string) (billing_ : option string) (a : PendingArgs)
    (raw_arg : option Raw) (rawPlan : option string) (createdAt_ : option Z)
    (token : option string) (event : Event) (p p' : Payment) :
  store_ok st -> In p (rows st) -> id p' = id p ->
  In p' (rows (fst (createPendingPayment st now a))) \/
  In p' (rows (fst (createOrder gw st users now userId plan_ billing_))) \/
  In p' (rows (fst (attachOrderToPayment st now userId paymentId orderID raw_arg))) \/
  In p' (rows (fst (attachOrderPublic st now orderID raw_arg rawPlan createdAt_ token))) \/
  In p' (rows (fst (fst (captureOrder env st users now userId orderID)))) \/
  In p' (rows (fst (handleWebhook env st users now event))) ->
  user_id p' = user_id p /\ plan p' = plan p /\ billingPeriod p' = billingPeriod p.
Proof.
  intros Hst Hp Hid Hin.
  assert (keeps p p') as (_ & Hk); [|exact Hk].
  destruct Hin as [H|[H|[H|[H|[H|H]]]]];
    (eapply rtc_writes_keeps; [|exact Hst|exact Hp|exact H|exact Hid]);
    auto using createPendingPayment_writes, createOrder_writes,
      attachOrderToPayment_writes, attachOrderPublic_writes, captureOrder_writes,
      handleWebhook_writes.
Qed.

(** Row 9001 of owner 42 after the webhook that settles ORDER-1. *)
Lemma rows_keep_their_owner_witness :
  let env := Scenario.gatewayReturning Cases.paidOrder in
  let p' := settledBy Cases.paidOrder Scenario.attachedRow in
  user_id p' = Some 42 /\ plan p' = Some "Pro" /\ billingPeriod p' = Some "monthly".
Proof.
  apply (rows_keep_their_owner
           (Scenario.gatewayReturning Cases.paidOrder) (Cases.orderGateway "ORDER-9")
           Scenario.ledgerAttached (Scenario.users42 Scenario.freeUser)
           Scenario.t0 42 9001 "ORDER-1" "Pro" (Some "monthly")
           Cases.clockCall None None None None Cases.captureCompleted
           Scenario.attachedRow (settledBy Cases.paidOrder Scenario.attachedRow)).
  - split; reflexivity.
  - simpl; auto.
  - reflexivity.
  - do 5 right. vm_compute. left. reflexivity.
Defined.

(** ** createPendingPayment, called again *)







(** ** findExistingPending *)

(** X5. The lookup answers with a pending row of the caller in the plan,
    billing period and minute asked for, and with nothing exactly when
    the table holds no such row; an anonymous row is never returned. *)
Theorem findExistingPending_own_pending_row
    (st : Store) (now userId : Z) (plan_ billing_ : option string) (createdAt_ : option Z) :
  userId <> 0 ->
  let wanted p :=
    inBucket userId (plan_ ??! "Pro") (billing_ ??! "monthly")
             (Js.setSeconds00 (createdAt_ ??! now)) p && isPending p in
  (forall inv, findExistingPending st now userId plan_ billing_ createdAt_ = Ok (Some inv) ->
     exists p, In p (rows st) /\ inv = invoiceShapeFromRow p /\ wanted p = true /\
               user_id p = Some userId) /\
  (findExistingPending st now userId plan_ billing_ createdAt_ = Ok None <->
     forall p, In p (rows st) -> wanted p = false).
Proof.
  intros Hu wanted. unfold findExistingPending, ensureValidUserId.
  rewrite bool_decide_eq_false_2 by exact Hu. fold wanted.
  destruct (findLatest wanted st) as [f|] eqn:E; split.
  - intros inv H. inversion H; subst. apply findLatest_some in E as [Hin Hw].
    exists f. repeat split; auto.
    unfold wanted, inBucket, coalesce_user in Hw.
    rewrite !andb_true_iff, bool_decide_eq_true in Hw.
    destruct Hw as [[[[Hc _] _] _] _].
    destruct (user_id f); cbn in Hc; congruence.
  - split; [discriminate|]. intros H. apply findLatest_some in E as [Hin Hw].
    rewrite (H f Hin) in Hw. discriminate.
  - discriminate.
  - split; [|reflexivity]. intros _ p Hp. eapply findLatest_none; eauto.
Qed.

(** Owner 42 looks for the pending Pro/monthly row of 10:15. *)
Lemma findExistingPending_own_pending_row_witness :
  let st := Scenario.ledgerAttached in
  let wanted p := inBucket 42 "Pro" "monthly" (Js.setSeconds00 Scenario.t0) p && isPending p in
  (forall inv,
     findExistingPending st Scenario.t0 42 (Some "Pro") (Some "monthly") (Some Scenario.t0)
       = Ok (Some inv) ->
     exists p, In p (rows st) /\ inv = invoiceShapeFromRow p /\ wanted p = true /\
               user_id p = Some 42) /\
  (findExistingPending st Scenario.t0 42 (Some "Pro") (Some "monthly") (Some Scenario.t0)
     = Ok None <->
   forall p, In p (rows st) -> wanted p = false).
Proof.
  apply (findExistingPending_own_pending_row Scenario.ledgerAttached Scenario.t0 42
           (Some "Pro") (Some "monthly") (Some Scenario.t0)).
  lia.
Defined.

(** ** attachOrderToPayment *)

Lemma save_ok_rows st p st' r :
  save st p = (st', Ok r) -> In p (rows st') /\
  forall q, id q <> id p -> (In q (rows st') <-> In q (rows st)).
Proof.
  intros H. split; [apply (save_ok_in _ _ _ _ H)|]. revert H. unfold save.
  destruct (existsb _ _); [discriminate|].
  destruct (existsb (has_id (id p)) (rows st)); intros H; inversion H; subst;
    intros q Hq; cbn [rows].
  - unfold replace_row. rewrite in_map_iff. split.
    + intros (x & Hx & Hin). unfold has_id in Hx. case_bool_decide; congruence.
    + intros Hin. exists q. split; [|exact Hin].
      unfold has_id. now rewrite bool_decide_eq_false_2.
  - rewrite in_app_iff. split; [intros [?|[->|[]]]; congruence|auto].
Qed.

(** X6. A rejected attach writes nothing. *)
Theorem attachOrderToPayment_failure_writes_nothing
    (st st' : Store) (now userId paymentId : Z) (orderID : string)
    (raw_arg : option Raw) (e : Error) :
  attachOrderToPayment st now userId paymentId orderID raw_arg = (st', Throw e) ->
  st' = st.
Proof.
  unfold attachOrderToPayment.
  destruct (ensureValidUserId userId); [|now inversion 1].
  case_bool_decide; [now inversion 1|].
  destruct (findOne _ st); [|now inversion 1].
  destruct (negb _); [now inversion 1|].
  destruct (save st _) as [st2 [saved|e']] eqn:Es; [discriminate|].
  intros Hx. inversion Hx; subst. eapply save_throw; eauto.
Qed.

(** Owner 7 tries to attach an order to row 2, which belongs to owner 8. *)
Lemma attachOrderToPayment_failure_writes_nothing_witness :
  fst (attachOrderToPayment Scenario.ledgerTwoOwners Scenario.t0 7 2 "ORDER-7" None)
    = Scenario.ledgerTwoOwners.
Proof.
  apply (attachOrderToPayment_failure_writes_nothing Scenario.ledgerTwoOwners
           (fst (attachOrderToPayment Scenario.ledgerTwoOwners Scenario.t0 7 2 "ORDER-7" None))
           Scenario.t0 7 2 "ORDER-7" None (NotFoundException "Payment not found for user")).
  reflexivity.
Defined.

(** X7. A successful attach binds the order to the caller's own row,
    keeps its status and amount, and leaves every other row alone. *)
Theorem attachOrderToPayment_binds_own_row
    (st st' : Store) (now userId paymentId : Z) (orderID : string)
    (raw_arg : option Raw) (inv : InvoiceDTO) :
  attachOrderToPayment st now userId paymentId orderID raw_arg = (st', Ok inv) ->
  exists p p',
    In p (rows st) /\ id p = paymentId /\ user_id p = Some userId /\
    In p' (rows st') /\ inv = invoiceShapeFromRow p' /\
    id p' = paymentId /\ user_id p' = Some userId /\
    paypalOrderId p' = Some orderID /\ status p' = status p /\ amount p' = amount p /\
    updatedAt p' = now /\
    forall q, id q <> paymentId -> (In q (rows st') <-> In q (rows st)).
Proof.
  unfold attachOrderToPayment, ensureValidUserId.
  case_bool_decide as Hu; [discriminate|].
  case_bool_decide as Hp; [discriminate|].
  destruct (findOne _ st) as [p|] eqn:Ef; [|discriminate].
  apply findOne_some in Ef as [Hin Hid]. apply bool_decide_eq_true in Hid.
  case_bool_decide as Hown; [|discriminate]. cbn [negb].
  destruct (save st _) as [st2 [saved|e']] eqn:Es; [|discriminate].
  intros Hx. inversion Hx; subst st2 inv. clear Hx.
  pose proof (save_ok_in _ _ _ _ Es) as [-> _].
  apply save_ok_rows in Es as [Hin' Hrest].
  eexists p, _. split; [exact Hin|]. split; [exact Hid|]. split; [exact Hown|].
  split; [exact Hin'|]. split; [reflexivity|].
  assert (forall x, id (set_updatedAt now x) = id x) as E1 by reflexivity.
  destruct (raw_truthy raw_arg);
    match goal with |- context [raw_createdMeta ?r] => destruct (raw_createdMeta r) end;
    cbn [id user_id paypalOrderId status amount updatedAt set_updatedAt set_createdAt
         set_createdAtMinute set_raw set_paypalOrderId] in *;
    rewrite Hid in Hrest; auto 12.
Qed.

(** Owner 42 attaches ORDER-2 to row 9002. *)
Lemma attachOrderToPayment_binds_own_row_witness :
  let st := Scenario.ledgerTwo in
  let out := attachOrderToPayment st (Scenario.t0 + Scenario.day) 42 9002 "ORDER-2" None in
  let inv := invoiceShapeFromRow
               (set_updatedAt (Scenario.t0 + Scenario.day)
                  (set_paypalOrderId (Some "ORDER-2") Scenario.otherRow)) in
  exists p p',
    In p (rows st) /\ id p = 9002 /\ user_id p = Some 42 /\
    In p' (rows (fst out)) /\ inv = invoiceShapeFromRow p' /\
    id p' = 9002 /\ user_id p' = Some 42 /\
    paypalOrderId p' = Some "ORDER-2" /\ status p' = status p /\ amount p' = amount p /\
    updatedAt p' = Scenario.t0 + Scenario.day /\
    forall q, id q <> 9002 -> (In q (rows (fst out)) <-> In q (rows st)).
Proof.
  apply (attachOrderToPayment_binds_own_row Scenario.ledgerTwo
           (fst (attachOrderToPayment Scenario.ledgerTwo (Scenario.t0 + Scenario.day)
                   42 9002 "ORDER-2" None))
           (Scenario.t0 + Scenario.day) 42 9002 "ORDER-2" None
           (invoiceShapeFromRow
              (set_updatedAt (Scenario.t0 + Scenario.day)
                 (set_paypalOrderId (Some "ORDER-2") Scenario.otherRow)))).
  reflexivity.
Defined.

(** ** captureOrder *)

Lemma captureOrder_cases env st users now userId orderID st' users' r :
  captureOrder env st users now userId orderID = (st', users', r) ->
  (exists e, r = Throw e /\ st' = st /\ users' = users) \/
  (exists p, r = Ok p /\ In p (rows st') /\
             users' = if isFinal p then grantPlan env users now userId p else users).
Proof.
  unfold captureOrder, ensureValidUserId.
  case_bool_decide; [inversion 1; subst; left; eauto|].
  destruct (negb _); [inversion 1; subst; left; eauto|].
  destruct (captureOrderOnPayPal env orderID) as [captureResult|];
    [|inversion 1; subst; left; eauto].
  match goal with |- context [match ?f with Some _ => save _ _ | None => insert_row _ _ end] =>
    destruct f as [payment|] end.
  - destruct (save st _) as [st2 [saved|e]] eqn:Es; inversion 1; subst.
    + right. exists saved. apply save_ok_in in Es as [-> Hin]. auto.
    + left. apply save_throw in Es. eauto.
  - destruct (insert_row st _) as [st2 [saved|e]] eqn:Es; inversion 1; subst.
    + right. exists saved. apply insert_row_ok in Es as (_ & _ & Hrows & _).
      rewrite Hrows. split; [reflexivity|]. split; [|reflexivity].
      apply in_or_app. right. now left.
    + left. apply insert_row_throw in Es as (_ & -> & _). eauto.
Qed.

(** X8. A capture that fails, at the gateway or at the table, changes
    neither the table nor any user. *)
Theorem captureOrder_failure_changes_nothing
    (env : Env) (st st' : Store) (users users' : gmap Z User) (now userId : Z)
    (orderID : string) (e : Error) :
  captureOrder env st users now userId orderID = (st', users', Throw e) ->
  st' = st /\ users' = users.
Proof.
  intros H. apply captureOrder_cases in H as [(e' & _ & -> & ->)|(p & H & _)];
    [auto|discriminate].
Qed.

(** Owner 42 captures ORDER-1 while the gateway is down. *)
Lemma captureOrder_failure_changes_nothing_witness :
  let out := captureOrder Scenario.gatewayDown Scenario.ledgerAttached
               (Scenario.users42 Scenario.freeUser) Scenario.t0 42 "ORDER-1" in
  fst (fst out) = Scenario.ledgerAttached /\
  snd (fst out) = Scenario.users42 Scenario.freeUser.
Proof.
  apply (captureOrder_failure_changes_nothing Scenario.gatewayDown Scenario.ledgerAttached
           (fst (fst (captureOrder Scenario.gatewayDown Scenario.ledgerAttached
                        (Scenario.users42 Scenario.freeUser) Scenario.t0 42 "ORDER-1")))
           (Scenario.users42 Scenario.freeUser)
           (snd (fst (captureOrder Scenario.gatewayDown Scenario.ledgerAttached
                        (Scenario.users42 Scenario.freeUser) Scenario.t0 42 "ORDER-1")))
           Scenario.t0 42 "ORDER-1" GatewayError).
  reflexivity.
Defined.

Lemma grantPlan_other env users now uid p v :
  v <> uid -> grantPlan env users now uid p !! v = users !! v.
Proof.
  intros Hv. unfold grantPlan. destruct (users !! uid); [|reflexivity].
  now rewrite lookup_insert_ne.
Qed.

Lemma grantPlan_none env users now uid p v :
  grantPlan env users now uid p !! v = None <-> users !! v = None.
Proof.
  unfold grantPlan. destruct (users !! uid) eqn:E; [|reflexivity].
  destruct (decide (v = uid)) as [->|Hv].
  - rewrite lookup_insert_eq, E. split; discriminate.
  - now rewrite lookup_insert_ne.
Qed.

(** X9. A capture changes the plan of nobody but the caller, creates no
    user, and changes the caller only when the row it wrote is settled. *)
Theorem captureOrder_grants_only_the_caller
    (env : Env) (st st' : Store) (users users' : gmap Z User) (now userId : Z)
    (orderID : string) (r : Result Payment) :
  captureOrder env st users now userId orderID = (st', users', r) ->
  (forall v, v <> userId -> users' !! v = users !! v) /\
  (forall v, users' !! v = None <-> users !! v = None) /\
  (users' <> users -> exists p, r = Ok p /\ isFinal p = true /\ In p (rows st')).
Proof.
  intros H. apply captureOrder_cases in H as [(e' & _ & -> & ->)|(p & -> & Hin & ->)];
    [now repeat split|].
  destruct (isFinal p) eqn:Efin; [|now repeat split].
  split; [intros v Hv; now apply grantPlan_other|].
  split; [intros v; apply grantPlan_none|].
  intros _. exists p. auto.
Qed.

(** Owner 42 captures ORDER-1, which row 9001 holds. *)
Lemma captureOrder_grants_only_the_caller_witness :
  let users := Scenario.users42 Scenario.freeUser in
  let out := captureOrder (Scenario.gatewayReturning Cases.paidOrder)
               Scenario.ledgerAttached users Scenario.t0 42 "ORDER-1" in
  (forall v, v <> 42 -> snd (fst out) !! v = users !! v) /\
  (forall v, snd (fst out) !! v = None <-> users !! v = None) /\
  (snd (fst out) <> users ->
   exists p, snd out = Ok p /\ isFinal p = true /\ In p (rows (fst (fst out)))).
Proof.
  apply (captureOrder_grants_only_the_caller (Scenario.gatewayReturning Cases.paidOrder)
           Scenario.ledgerAttached
           (fst (fst (captureOrder (Scenario.gatewayReturning Cases.paidOrder)
                        Scenario.ledgerAttached (Scenario.users42 Scenario.freeUser)
                        Scenario.t0 42 "ORDER-1")))
           (Scenario.users42 Scenario.freeUser)
           (snd (fst (captureOrder (Scenario.gatewayReturning Cases.paidOrder)
                        Scenario.ledgerAttached (Scenario.users42 Scenario.freeUser)
                        Scenario.t0 42 "ORDER-1")))
           Scenario.t0 42 "ORDER-1"
           (snd (captureOrder (Scenario.gatewayReturning Cases.paidOrder)
                   Scenario.ledgerAttached (Scenario.users42 Scenario.freeUser)
                   Scenario.t0 42 "ORDER-1"))).
  vm_compute. reflexivity.
Defined.

(** ** handleWebhook *)

(** X10. An event of another type, or without a type, is acknowledged and
    ignored. *)
Theorem handleWebhook_ignores_other_events
    (env : Env) (st : Store) (users : gmap Z User) (now : Z) (event : Event) :
  (forall ty, eventTypeOf event = Some ty -> ty ∉ captureEventTypes) ->
  handleWebhook env st users now event = (st, users).
Proof.
  intros H. unfold handleWebhook.
  destruct (eventTypeOf event) as [ty|]; [|reflexivity].
  destruct (negb (Js.truthy ty)); [reflexivity|].
  now rewrite (bool_decide_eq_false_2 _ (H ty eq_refl)).
Qed.

(** A subscription event is not a capture event. *)
Lemma handleWebhook_ignores_other_events_witness :
  handleWebhook Scenario.gatewayDown Scenario.ledgerAttached
    (Scenario.users42 Scenario.freeUser) Scenario.t0 Cases.billingEvent
  = (Scenario.ledgerAttached, Scenario.users42 Scenario.freeUser).
Proof.
  apply (handleWebhook_ignores_other_events Scenario.gatewayDown Scenario.ledgerAttached
           (Scenario.users42 Scenario.freeUser) Scenario.t0 Cases.billingEvent).
  intros ty H. vm_compute in H. inversion H.
  apply (proj1 (bool_decide_eq_false _)). reflexivity.
Defined.











(** X12. A webhook changes a user only through the heuristic: the user is
    the owner of a pending row of the table, no row held the order id of
    the event, and nobody else is changed or created. *)
Theorem handleWebhook_grants_only_the_owner_of_a_pending_row
    (env : Env) (st st' : Store) (users users' : gmap Z User) (now : Z) (event : Event) :
  handleWebhook env st users now event = (st', users') ->
  users' <> users ->
  exists cand uid oid,
    In cand (rows st) /\ isPending cand = true /\ user_id cand = Some uid /\ uid <> 0 /\
    orderIdOf (resource event ??! emptyResource) = Some oid /\
    (forall p, In p (rows st) -> paypalOrderId p <> Some oid) /\
    (forall v, v <> uid -> users' !! v = users !! v) /\
    (forall v, users' !! v = None <-> users !! v = None).
Proof.
  unfold handleWebhook.
  destruct (eventTypeOf event) as [ty|]; [|intros Hx; inversion Hx; congruence].
  destruct (negb (Js.truthy ty)); [intros Hx; inversion Hx; congruence|].
  destruct (negb (bool_decide (ty ∈ captureEventTypes)));
    [intros Hx; inversion Hx; congruence|].
  cbv zeta.
  destruct (negb (Js.truthy_opt (orderIdOf (resource event ??! emptyResource)))
            && Js.truthy_opt (r_id (resource event ??! emptyResource))).
  { destruct (findOne _ st); intros Hx; inversion Hx; congruence. }
  destruct (orderIdOf (resource event ??! emptyResource)) as [oid|];
    [|intros Hx; inversion Hx; congruence].
  destruct (negb (Js.truthy oid)); [intros Hx; inversion Hx; congruence|].
  destruct (getOrderOnPayPal env oid) as [order|]; [|intros Hx; inversion Hx; congruence].
  destruct (findOne _ st) as [payment|] eqn:Ef; [intros Hx; inversion Hx; congruence|].
  destruct (heuristicCandidate _ _ _) as [cand|] eqn:Eh;
    [|intros Hx; inversion Hx; congruence].
  destruct (hasOwner cand) eqn:Eown; [|intros Hx; inversion Hx; congruence].
  destruct (save st _) as [st2 [saved|e]] eqn:Es; [|intros Hx; inversion Hx; congruence].
  intros Hx _. inversion Hx; subst st2 users'. clear Hx.
  apply save_ok_in in Es as [-> _].
  apply findLatest_some in Eh as [Hin Hp]. apply andb_true_iff in Hp as [_ Hp].
  unfold hasOwner in Eown. destruct (user_id cand) as [uid|] eqn:Eu; [|discriminate].
  apply negb_true_iff, bool_decide_eq_false in Eown.
  exists cand, uid, oid. cbn [user_id set_raw set_payerName set_payerEmail set_status
    set_paypalCaptureId set_paypalOrderId]. rewrite Eu. cbn [Js.nullish_def].
  repeat split; auto.
  - intros p Hp'. pose proof (find_none _ _ Ef p Hp') as Hno.
    now apply bool_decide_eq_false in Hno.
  - intros v Hv. now apply grantPlan_other.
  - apply grantPlan_none.
  - apply grantPlan_none.
Qed.

(** Owners 7 and 8 each hold a pending row of 10:15 at 12.99; the
    webhook for ORDER-1 takes the row of owner 8. *)
Lemma handleWebhook_grants_only_the_owner_of_a_pending_row_witness :
  let env := Scenario.gatewayReturning Cases.paidOrder in
  let st := Scenario.ledgerTwoOwners in
  let out := handleWebhook env st Cases.users8 Scenario.t0 Cases.captureCompleted in
  exists cand uid oid,
    In cand (rows st) /\ isPending cand = true /\ user_id cand = Some uid /\ uid <> 0 /\
    orderIdOf (resource Cases.captureCompleted ??! emptyResource) = Some oid /\
    (forall p, In p (rows st) -> paypalOrderId p <> Some oid) /\
    (forall v, v <> uid -> snd out !! v = Cases.users8 !! v) /\
    (forall v, snd out !! v = None <-> Cases.users8 !! v = None).
Proof.
  apply (handleWebhook_grants_only_the_owner_of_a_pending_row
           (Scenario.gatewayReturning Cases.paidOrder) Scenario.ledgerTwoOwners
           (fst (handleWebhook (Scenario.gatewayReturning Cases.paidOrder)
                   Scenario.ledgerTwoOwners Cases.users8 Scenario.t0
                   Cases.captureCompleted))
           Cases.users8
           (snd (handleWebhook (Scenario.gatewayReturning Cases.paidOrder)
                   Scenario.ledgerTwoOwners Cases.users8 Scenario.t0
                   Cases.captureCompleted))
           Scenario.t0 Cases.captureCompleted).
  - reflexivity.
  - intros H. apply (f_equal (fun m => m !! 8)) in H. vm_compute in H. discriminate.
Defined.

(** ** captureOrder on an order no row matches *)




(** X14. Once a capture has settled a row of the caller, the caller is
    allowed in at any later time, whatever happens to the expiry. *)
Theorem settled_capture_opens_access
    (env : Env) (st st' : Store) (users users' : gmap Z User) (now later userId : Z)
    (orderID : string) (p : Payment) :
  captureOrder env st users now userId orderID = (st', users', Ok p) ->
  isFinal p = true -> user_id p = Some userId -> users !! userId <> None ->
  allowed (getAccessInfo st' users' later userId) = true /\
  hasSuccessfulPayment (getAccessInfo st' users' later userId) = true.
Proof.
  intros H Hfin Hown Huser.
  assert (userId <> 0 /\ Js.toLowerCase (status p) = status p) as [Hu Hlow].
  { revert H. unfold captureOrder, ensureValidUserId.
    case_bool_decide as Hu; [discriminate|]. split; [exact Hu|].
    revert H. destruct (negb _); [discriminate|].
    destruct (captureOrderOnPayPal env orderID) as [order|]; [|discriminate].
    match goal with |- context [match ?f with Some _ => save _ _ | None => insert_row _ _ end] =>
      destruct f as [payment|] end.
    - destruct (save st _) as [st2 [saved|e]] eqn:Es; [|discriminate].
      apply save_ok_in in Es as [-> _]. intros Hx. inversion Hx.
      cbn [status set_payerName set_payerEmail set_raw set_currency set_amount set_status].
      apply toLowerCase_idem.
    - destruct (insert_row st _) as [st2 [saved|e]] eqn:Es; [|discriminate].
      apply insert_row_ok in Es as (_ & -> & _). intros Hx. inversion Hx.
      cbn [status set_id]. apply toLowerCase_idem. }
  apply captureOrder_cases in H as [(e & He & _)|(q & Hq & Hin & ->)]; [discriminate|].
  inversion Hq; subst q. rewrite Hfin.
  unfold isFinal in Hfin. rewrite Hlow in Hfin. apply bool_decide_eq_true in Hfin.
  assert (status p ∈ allowedStatuses) as Hall.
  { unfold finalStatuses in Hfin. unfold allowedStatuses.
    repeat (apply elem_of_cons in Hfin as [->|Hfin]; [set_solver|]).
    now apply elem_of_nil in Hfin. }
  destruct (findLatest_found
              (fun q => bool_decide (user_id q = Some userId)
                        && bool_decide (status q ∈ allowedStatuses)) st' p Hin)
    as [f Hf].
  { now rewrite !bool_decide_eq_true_2. }
  unfold getAccessInfo. rewrite bool_decide_eq_false_2 by exact Hu.
  destruct (grantPlan env users now userId p !! userId) as [u|] eqn:Eg.
  - cbv zeta. rewrite Hf. cbn [allowed hasSuccessfulPayment].
    rewrite orb_true_r. split; [|reflexivity]. now destruct (bool_decide _).
  - apply grantPlan_none in Eg. contradiction.
Qed.

(** Owner 42, lapsed, captures ORDER-1; access is asked 400 days later. *)
Lemma settled_capture_opens_access_witness :
  let out := captureOrder (Scenario.gatewayReturning Cases.paidOrder)
               Scenario.ledgerAttached (Scenario.users42 Scenario.lapsedUser)
               Scenario.t0 42 "ORDER-1" in
  let later := Scenario.t0 + 400 * Scenario.day in
  allowed (getAccessInfo (fst (fst out)) (snd (fst out)) later 42) = true /\
  hasSuccessfulPayment (getAccessInfo (fst (fst out)) (snd (fst out)) later 42) = true.
Proof.
  apply (settled_capture_opens_access (Scenario.gatewayReturning Cases.paidOrder)
           Scenario.ledgerAttached
           (fst (fst (captureOrder (Scenario.gatewayReturning Cases.paidOrder)
                        Scenario.ledgerAttached (Scenario.users42 Scenario.lapsedUser)
                        Scenario.t0 42 "ORDER-1")))
           (Scenario.users42 Scenario.lapsedUser)
           (snd (fst (captureOrder (Scenario.gatewayReturning Cases.paidOrder)
                        Scenario.ledgerAttached (Scenario.users42 Scenario.lapsedUser)
                        Scenario.t0 42 "ORDER-1")))
           Scenario.t0 (Scenario.t0 + 400 * Scenario.day) 42 "ORDER-1"
           (hd Scenario.attachedRow
               (rows (fst (fst (captureOrder (Scenario.gatewayReturning Cases.paidOrder)
                                  Scenario.ledgerAttached
                                  (Scenario.users42 Scenario.lapsedUser)
                                  Scenario.t0 42 "ORDER-1")))))).
  - vm_compute. reflexivity.
  - vm_compute. reflexivity.
  - vm_compute. reflexivity.
  - vm_compute. discriminate.
Defined.

(** ** Deleting *)

(** X15. Clear-pending reports the number of rows it removed, and a second
    clear finds nothing to remove. *)
Theorem clearPendingForUser_counts_and_is_idempotent
    (st st1 : Store) (userId n : Z) :
  clearPendingForUser st userId = (st1, Ok n) ->
  Z.of_nat (List.length (rows st1)) + n = Z.of_nat (List.length (rows st)) /\
  clearPendingForUser st1 userId = (st1, Ok 0).
Proof.
  unfold clearPendingForUser. destruct (ensureValidUserId userId) as [uid|]; [|discriminate].
  intros H. inversion H; subst. clear H. cbn [rows next_id]. split.
  - induction (rows st) as [|p l IH]; cbn [List.filter List.length]; [reflexivity|].
    destruct (coalesce_user p uid && isPending p); cbn [negb List.length]; lia.
  - f_equal.
    + f_equal. induction (rows st) as [|p l IH]; [reflexivity|].
      cbn [List.filter]. destruct (coalesce_user p uid && isPending p) eqn:E; cbn [negb].
      * exact IH.
      * cbn [List.filter]. rewrite E. cbn [negb]. now f_equal.
    + do 2 f_equal. induction (rows st) as [|p l IH]; [reflexivity|].
      cbn [List.filter]. destruct (coalesce_user p uid && isPending p) eqn:E; cbn [negb].
      * exact IH.
      * cbn [List.filter]. rewrite E. exact IH.
Qed.

(** Owner 42 clears the two pending rows 9001 and 9002. *)
Lemma clearPendingForUser_counts_and_is_idempotent_witness :
  let st1 := fst (clearPendingForUser Scenario.ledgerTwo 42) in
  Z.of_nat (List.length (rows st1)) + 2 = Z.of_nat (List.length (rows Scenario.ledgerTwo)) /\
  clearPendingForUser st1 42 = (st1, Ok 0).
Proof.
  apply (clearPendingForUser_counts_and_is_idempotent Scenario.ledgerTwo
           (fst (clearPendingForUser Scenario.ledgerTwo 42)) 42 2).
  reflexivity.
Defined.

(** X16. A row that was deleted is gone: the same request a second time
    answers false, which the request handler turns into a 404. *)
Theorem deletePayment_twice_is_not_found
    (st st1 : Store) (userId paymentId : Z) :
  deletePaymentForUser st userId paymentId = (st1, Ok true) ->
  deletePaymentForUser st1 userId paymentId = (st1, Ok false) /\
  deletePayment st1 userId paymentId = (st1, Throw (NotFoundException "Payment not found")).
Proof.
  intros H.
  assert (userId <> 0 /\ paymentId <> 0 /\ st1 = delete_id st paymentId) as (Hu & Hp & ->).
  { revert H. unfold deletePaymentForUser, ensureValidUserId.
    case_bool_decide as Hu; [discriminate|]. case_bool_decide as Hp; [discriminate|].
    destruct (findOne _ st); [|discriminate]. destruct (negb _); [discriminate|].
    intros Hx. now inversion Hx. }
  assert (deletePaymentForUser (delete_id st paymentId) userId paymentId
          = (delete_id st paymentId, Ok false)) as E.
  { unfold deletePaymentForUser, ensureValidUserId.
    rewrite !bool_decide_eq_false_2 by assumption.
    destruct (findOne _ (delete_id st paymentId)) as [q|] eqn:Ef; [|reflexivity].
    apply findOne_some in Ef as [Hin Hid]. unfold delete_id in Hin. cbn [rows] in Hin.
    apply filter_In in Hin as [_ Hn]. rewrite Hid in Hn. discriminate. }
  split; [exact E|]. unfold deletePayment.
  rewrite !bool_decide_eq_false_2 by assumption. now rewrite E.
Qed.

(** Owner 42 deletes row 9001 twice. *)
Lemma deletePayment_twice_is_not_found_witness :
  let st1 := fst (deletePaymentForUser Scenario.ledgerSettled 42 9001) in
  deletePaymentForUser st1 42 9001 = (st1, Ok false) /\
  deletePayment st1 42 9001 = (st1, Throw (NotFoundException "Payment not found")).
Proof.
  apply (deletePayment_twice_is_not_found Scenario.ledgerSettled
           (fst (deletePaymentForUser Scenario.ledgerSettled 42 9001)) 42 9001).
  reflexivity.
Defined.

(** ** createOrder *)

Lemma mapPlanPrice_free plan_ billing_ :
  fst (mapPlanPrice plan_ billing_) <= 0 <->
  plan_ <> "" /\ Js.toLowerCase plan_ <> "pro" /\ Js.toLowerCase plan_ <> "tutor".
Proof.
  unfold mapPlanPrice.
  destruct (decide (plan_ = "")) as [->|Hne].
  - replace (Js.toLowerCase (if Js.truthy "" then "" else "Pro")) with "pro"
      by reflexivity.
    rewrite (bool_decide_eq_true_2 ("pro" = "pro")) by reflexivity.
    case_bool_decide; cbn [fst]; (split; [lia|now intros [[] _]]).
  - unfold Js.truthy. rewrite (bool_decide_eq_false_2 _ Hne). cbn [negb].
    repeat case_bool_decide; cbn [fst]; split; try lia; try tauto; auto.
Qed.

Lemma createOrder_throws gw st users now userId plan_ billing_ st' e :
  createOrder gw st users now userId plan_ billing_ = (st', Throw e) ->
  st' = st /\
  (e = BadRequestException "Invalid or free plan selected" ->
   userId <> 0 /\ fst (mapPlanPrice plan_ billing_) <= 0).
Proof.
  unfold createOrder, ensureValidUserId.
  case_bool_decide as Hu; [inversion 1; split; [reflexivity|discriminate]|].
  case_bool_decide as Hp; [inversion 1; auto|].
  match goal with |- context [match ?r with Some found => (st, Ok found) | None => _ end] =>
    destruct r; [discriminate|] end.
  destruct (gw _ _) as [orderId|]; [|inversion 1; split; [reflexivity|discriminate]].
  destruct (negb (Js.truthy_opt orderId));
    [inversion 1; split; [reflexivity|discriminate]|].
  destruct (insert_row st _) as [st1 [saved|e']] eqn:Ei; [discriminate|].
  apply insert_row_throw in Ei as (_ & -> & ->).
  inversion 1; split; [reflexivity|discriminate].
Qed.

(** X17. An order is refused as "Invalid or free plan selected" exactly
    for a plan name that is not empty and is neither pro nor tutor in
    any letter case (the empty name is priced as Pro); whatever makes
    createOrder fail, nothing is written. *)
Theorem createOrder_refuses_exactly_the_unpriced_plans
    (gw : Z -> string -> option (option string)) (st : Store) (users : gmap Z User)
    (now userId : Z) (plan_ : string) (billing_ : option string) :
  userId <> 0 ->
  (snd (createOrder gw st users now userId plan_ billing_)
     = Throw (BadRequestException "Invalid or free plan selected") <->
   plan_ <> "" /\ Js.toLowerCase plan_ <> "pro" /\ Js.toLowerCase plan_ <> "tutor") /\
  (forall e, snd (createOrder gw st users now userId plan_ billing_) = Throw e ->
             fst (createOrder gw st users now userId plan_ billing_) = st).
Proof.
  intros Hu. split.
  - rewrite <- mapPlanPrice_free. split.
    + destruct (createOrder gw st users now userId plan_ billing_) as [st' r] eqn:E.
      cbn [snd]. intros ->. apply createOrder_throws in E as (_ & H).
      now apply H.
    + intros Hp. unfold createOrder, ensureValidUserId.
      rewrite (bool_decide_eq_false_2 _ Hu). now rewrite (bool_decide_eq_true_2 _ Hp).
  - intros e. destruct (createOrder gw st users now userId plan_ billing_) as [st' r] eqn:E.
    cbn [fst snd]. intros ->. now apply createOrder_throws in E as (-> & _).
Qed.

(** Owner 42 asks for the plan "Gold". *)
Lemma createOrder_refuses_exactly_the_unpriced_plans_witness :
  let out := createOrder (Cases.orderGateway "ORDER-9") emptyStore ∅ Scenario.t0 42
               "Gold" None in
  (snd out = Throw (BadRequestException "Invalid or free plan selected") <->
   "Gold" <> "" /\ Js.toLowerCase "Gold" <> "pro" /\ Js.toLowerCase "Gold" <> "tutor") /\
  (forall e, snd out = Throw e -> fst out = emptyStore).
Proof.
  apply (createOrder_refuses_exactly_the_unpriced_plans (Cases.orderGateway "ORDER-9")
           emptyStore ∅ Scenario.t0 42 "Gold" None).
  lia.
Defined.








(** ** attachOrderPublic *)



(** ** getPaymentForUser *)

(** X20. A payment is handed out to its owner and to nobody else. *)
Theorem getPaymentForUser_only_to_the_owner
    (st : Store) (userId paymentId : Z) (p : Payment) :
  store_ok st ->
  (getPaymentForUser st userId paymentId = Ok p <->
   userId <> 0 /\ In p (rows st) /\ id p = paymentId /\ user_id p = Some userId).
Proof.
  intros Hst. unfold getPaymentForUser, ensureValidUserId. split.
  - case_bool_decide as Hu; [discriminate|].
    destruct (findOne _ st) as [q|] eqn:Ef; [|discriminate].
    apply findOne_some in Ef as [Hin Hid]. apply bool_decide_eq_true in Hid.
    case_bool_decide as Hown; [|discriminate]. intros Hx. inversion Hx; subst. auto.
  - intros (Hu & Hin & <- & Hown).
    rewrite (bool_decide_eq_false_2 _ Hu), (findOne_has_id st p Hst Hin).
    now rewrite (bool_decide_eq_true_2 _ Hown).
Qed.

(** Row 1 belongs to owner 7. *)
Lemma getPaymentForUser_only_to_the_owner_witness :
  getPaymentForUser Scenario.ledgerTwoOwners 8 1 = Ok Scenario.rowOf7 <->
  8 <> 0 /\ In Scenario.rowOf7 (rows Scenario.ledgerTwoOwners) /\
  id Scenario.rowOf7 = 1 /\ user_id Scenario.rowOf7 = Some 8.
Proof.
  apply (getPaymentForUser_only_to_the_owner Scenario.ledgerTwoOwners 8 1 Scenario.rowOf7).
  split; reflexivity.
Defined.

(** ** Listings *)

Lemma insertDesc_perm p l : insertDesc p l ≡ₚ p :: l.
Proof.
  induction l as [|q l IH]; cbn [insertDesc]; [reflexivity|].
  case_bool_decide; [reflexivity|]. rewrite IH. apply Permutation_swap.
Qed.

Lemma byCreatedDesc_perm l : byCreatedDesc l ≡ₚ l.
Proof.
  unfold byCreatedDesc. induction l as [|p l IH]; cbn [fold_right]; [reflexivity|].
  now rewrite insertDesc_perm, IH.
Qed.

Lemma byCreatedDesc_in l p : In p (byCreatedDesc l) <-> In p l.
Proof.
  rewrite <- !list_elem_of_In. now rewrite byCreatedDesc_perm.
Qed.

Lemma insertDesc_newestFirst p l : newestFirst l -> newestFirst (insertDesc p l).
Proof.
  induction l as [|q l IH]; cbn [insertDesc newestFirst].
  - intros _. split; [intros q []|exact I].
  - intros [Hq Hl]. case_bool_decide as Hlt; cbn [newestFirst].
    + split; [|auto]. intros x [<-|Hx]; [lia|]. specialize (Hq x Hx). lia.
    + split; [|auto]. intros x Hx.
      apply list_elem_of_In in Hx. rewrite insertDesc_perm in Hx.
      apply list_elem_of_In in Hx as [<-|Hx]; [lia|auto].
Qed.

Lemma byCreatedDesc_newestFirst l : newestFirst (byCreatedDesc l).
Proof.
  unfold byCreatedDesc. induction l as [|p l IH]; cbn [fold_right]; [exact I|].
  now apply insertDesc_newestFirst.
Qed.

(** X21. The payments of a user are listed newest first: all of the
    caller's rows, each once, and no row of anybody else. *)
Theorem listPaymentsForUser_own_rows_newest_first
    (st : Store) (userId : Z) (l : list Payment) :
  listPaymentsForUser st userId = Ok l ->
  newestFirst l /\
  l ≡ₚ List.filter (fun p => bool_decide (user_id p = Some userId)) (rows st) /\
  (forall p, In p l <-> In p (rows st) /\ user_id p = Some userId).
Proof.
  unfold listPaymentsForUser, ensureValidUserId.
  case_bool_decide; [discriminate|]. intros Hx. inversion Hx; subst. clear Hx.
  split; [apply byCreatedDesc_newestFirst|]. split; [apply byCreatedDesc_perm|].
  intros p. rewrite byCreatedDesc_in, filter_In, bool_decide_eq_true. reflexivity.
Qed.

(** The rows of owner 42: 9002 is five minutes younger than 9001. *)
Lemma listPaymentsForUser_own_rows_newest_first_witness :
  let l := [Scenario.otherRow; Scenario.attachedRow] in
  newestFirst l /\
  l ≡ₚ List.filter (fun p => bool_decide (user_id p = Some 42)) (rows Scenario.ledgerTwo) /\
  (forall p, In p l <-> In p (rows Scenario.ledgerTwo) /\ user_id p = Some 42).
Proof.
  apply (listPaymentsForUser_own_rows_newest_first Scenario.ledgerTwo 42
           [Scenario.otherRow; Scenario.attachedRow]).
  reflexivity.
Defined.

(** *** The curated invoice list *)

Lemma dedupeById_in seen l inv : In inv (dedupeById seen l) -> In inv l /\ inv_id inv ∉ seen.
Proof.
  revert seen. induction l as [|x l IH]; intros seen; cbn [dedupeById]; [intros []|].
  case_bool_decide as Hs.
  - intros Hin. apply IH in Hin as [? ?]. split; [now right|assumption].
  - intros [<-|Hin]; [split; [now left|exact Hs]|].
    apply IH in Hin as [? Hn]. split; [now right|].
    intros Hc. apply Hn. now apply elem_of_cons; right.
Qed.

Lemma dedupeById_nodup seen l : NoDup (map inv_id (dedupeById seen l)).
Proof.
  revert seen. induction l as [|x l IH]; intros seen; cbn [dedupeById map];
    [apply NoDup_nil_2|].
  case_bool_decide as Hs; [apply IH|]. cbn [map]. apply NoDup_cons_2; [|apply IH].
  intros Hin. apply list_elem_of_In, in_map_iff in Hin as (y & Hy & Hin).
  apply dedupeById_in in Hin as [_ Hn]. apply Hn. rewrite Hy. now apply elem_of_cons; left.
Qed.

Lemma dedupeById_filter_length f seen l :
  (List.length (List.filter f (dedupeById seen l)) <= List.length (List.filter f l))%nat.
Proof.
  revert seen. induction l as [|x l IH]; intros seen; cbn [dedupeById List.filter]; [lia|].
  case_bool_decide.
  - specialize (IH seen). destruct (f x); cbn [List.length]; lia.
  - cbn [List.filter]. specialize (IH (inv_id x :: seen)).
    destruct (f x); cbn [List.length]; lia.
Qed.

Lemma buildInvoice_reason users now uid p :
  inv_reason (buildInvoiceFromPayment users now uid p)
    ∈ [Some "change_plan"; Some "past_due"; Some "next_due"; Some "regular"].
Proof.
  unfold buildInvoiceFromPayment.
  destruct (chain (raw_meta (raw p)) m_reason) as [r0|].
  - destruct (Js.truthy r0).
    + destruct (includes _ "change"); [cbn; set_solver|].
      destruct (includes _ "past"); [cbn; set_solver|].
      destruct (includes _ "next"); cbn; set_solver.
    + rewrite bool_decide_eq_true_2 by reflexivity.
      repeat match goal with |- context [if ?b then _ else _] => destruct b end;
        cbn; set_solver.
  - rewrite bool_decide_eq_true_2 by reflexivity.
    repeat match goal with |- context [if ?b then _ else _] => destruct b end;
      cbn; set_solver.
Qed.

Lemma buildInvoice_fields users now uid p :
  inv_id (buildInvoiceFromPayment users now uid p) = id p /\
  inv_status (buildInvoiceFromPayment users now uid p) = status p /\
  inv_amount (buildInvoiceFromPayment users now uid p) = amount p.
Proof.
  unfold buildInvoiceFromPayment.
  repeat match goal with |- context [let '(_, _) := ?b in _] => destruct b end.
  auto.
Qed.

(** Every id of the list survives the [seen] filter. *)
Lemma dedupeById_keeps_id seen l inv :
  In inv l -> inv_id inv ∉ seen ->
  exists inv', In inv' (dedupeById seen l) /\ inv_id inv' = inv_id inv.
Proof.
  revert seen. induction l as [|x l IH]; intros seen; [intros []|].
  cbn [dedupeById]. intros [->|Hin] Hs.
  - rewrite (bool_decide_eq_false_2 _ Hs). exists inv. split; [now left|reflexivity].
  - case_bool_decide as Hx; [now apply IH|].
    destruct (decide (inv_id x = inv_id inv)) as [E|E].
    + exists x. split; [now left|exact E].
    + destruct (IH (inv_id x :: seen) Hin) as (inv' & Hin' & E').
      * intros Hc. apply elem_of_cons in Hc as [Hc|Hc]; [congruence|contradiction].
      * exists inv'. split; [now right|exact E'].
Qed.

Lemma curated_rows st users now uid limit inv :
  In inv (map (buildInvoiceFromPayment users now uid)
            (List.filter isPendingRow
               (byCreatedDesc (List.filter (fun p => bool_decide (user_id p = Some uid))
                                 (rows st))))
          ++ map (buildInvoiceFromPayment users now uid)
               (take limit
                  (List.filter isPaidRow
                     (byCreatedDesc (List.filter (fun p => bool_decide (user_id p = Some uid))
                                       (rows st)))))) ->
  exists p, In p (rows st) /\ user_id p = Some uid /\
            inv = buildInvoiceFromPayment users now uid p /\
            (isPendingRow p = true \/ isPaidRow p = true).
Proof.
  intros Hin. apply in_app_or in Hin as [Hin|Hin];
    apply in_map_iff in Hin as (p & <- & Hp).
  - apply filter_In in Hp as [Hp Hs]. apply byCreatedDesc_in, filter_In in Hp as [Hp Hu].
    apply bool_decide_eq_true in Hu. exists p. auto.
  - apply list_elem_of_In in Hp. apply elem_of_take in Hp as (i & Hp & _).
    apply list_elem_of_lookup_2, list_elem_of_In in Hp.
    apply filter_In in Hp as [Hp Hs]. apply byCreatedDesc_in, filter_In in Hp as [Hp Hu].
    apply bool_decide_eq_true in Hu. exists p. auto.
Qed.

Lemma pending_not_paid s : s ∈ pendingStatuses -> s ∉ paidStatuses.
Proof.
  unfold pendingStatuses, paidStatuses. intros H.
  repeat (apply elem_of_cons in H as [->|H];
          [apply (proj1 (bool_decide_eq_false _)); reflexivity|]).
  now apply elem_of_nil in H.
Qed.

Lemma filter_none {A} (f : A -> bool) l :
  (forall x, In x l -> f x = false) -> List.filter f l = [].
Proof.
  induction l as [|x l IH]; intros H; [reflexivity|]. cbn [List.filter].
  rewrite (H x) by now left. apply IH. intros y Hy. apply H. now right.
Qed.

(** X22. The curated invoice list shows each payment at most once, only
    pending and settled payments of the caller, at most [paidLimit]
    settled ones, and never the reason "unknown". *)
Theorem listInvoicesForUserCurated_sound
    (st : Store) (users : gmap Z User) (now userId : Z) (paidLimit : nat)
    (l : list InvoiceDTO) :
  listInvoicesForUserCurated st users now userId paidLimit = Ok l ->
  NoDup (map inv_id l) /\
  (forall inv, In inv l ->
     exists p, In p (rows st) /\ user_id p = Some userId /\
               inv = buildInvoiceFromPayment users now userId p /\
               (isPendingRow p = true \/ isPaidRow p = true)) /\
  (List.length (List.filter isPaidInvoice l) <= paidLimit)%nat /\
  (forall inv, In inv l ->
     inv_reason inv ∈ [Some "change_plan"; Some "past_due"; Some "next_due"; Some "regular"]).
Proof.
  unfold listInvoicesForUserCurated, ensureValidUserId.
  case_bool_decide; [discriminate|]. cbv zeta. intros Hx. inversion Hx; subst l. clear Hx.
  split; [apply dedupeById_nodup|].
  assert (Hrows : forall inv, In inv (dedupeById [] _) -> _) 
    by (intros inv Hin; apply dedupeById_in in Hin as [Hin _];
        exact (curated_rows st users now userId paidLimit inv Hin)).
  split; [exact Hrows|]. split.
  - etransitivity; [apply dedupeById_filter_length|].
    rewrite List.filter_app, length_app.
    match goal with |- (List.length ?a + List.length ?b <= _)%nat =>
      assert (a = []) as ->; [|assert (List.length b <= paidLimit)%nat; [|cbn; lia]] end.
    + apply filter_none.
      intros inv Hin. apply in_map_iff in Hin as (p & <- & Hp).
      apply filter_In in Hp as [_ Hs]. unfold isPaidInvoice.
      destruct (buildInvoice_fields users now userId p) as (_ & -> & _).
      apply bool_decide_eq_false, pending_not_paid.
      now apply bool_decide_eq_true in Hs.
    + etransitivity; [apply List.filter_length_le|].
      rewrite length_map, length_take. lia.
  - intros inv Hin. destruct (Hrows inv Hin) as (p & _ & _ & -> & _).
    apply buildInvoice_reason.
Qed.

(** The invoices of owner 42, who is on the free plan. *)
Lemma listInvoicesForUserCurated_sound_witness :
  let users := Scenario.users42 Scenario.freeUser in
  let l := map (buildInvoiceFromPayment users Scenario.t0 42)
               [Scenario.otherRow; Scenario.attachedRow] in
  NoDup (map inv_id l) /\
  (forall inv, In inv l ->
     exists p, In p (rows Scenario.ledgerTwo) /\ user_id p = Some 42 /\
               inv = buildInvoiceFromPayment users Scenario.t0 42 p /\
               (isPendingRow p = true \/ isPaidRow p = true)) /\
  (List.length (List.filter isPaidInvoice l) <= 10)%nat /\
  (forall inv, In inv l ->
     inv_reason inv ∈ [Some "change_plan"; Some "past_due"; Some "next_due"; Some "regular"]).
Proof.
  apply (listInvoicesForUserCurated_sound Scenario.ledgerTwo
           (Scenario.users42 Scenario.freeUser) Scenario.t0 42 10%nat
           (map (buildInvoiceFromPayment (Scenario.users42 Scenario.freeUser) Scenario.t0 42)
                [Scenario.otherRow; Scenario.attachedRow])).
  reflexivity.
Defined.

(** X23. On a well-formed table every pending payment of the caller is in
    the curated list, whatever the limit. *)
Theorem listInvoicesForUserCurated_lists_every_pending_row
    (st : Store) (users : gmap Z User) (now userId : Z) (paidLimit : nat)
    (l : list InvoiceDTO) (p : Payment) :
  store_ok st ->
  listInvoicesForUserCurated st users now userId paidLimit = Ok l ->
  In p (rows st) -> user_id p = Some userId -> isPendingRow p = true ->
  In (buildInvoiceFromPayment users now userId p) l.
Proof.
  intros [Hpw _] H Hp Hu Hs. revert H.
  unfold listInvoicesForUserCurated, ensureValidUserId.
  case_bool_decide; [discriminate|]. cbv zeta. intros Hx. inversion Hx; subst l. clear Hx.
  match goal with |- In _ (dedupeById [] ?m) => set (merged := m) end.
  assert (In (buildInvoiceFromPayment users now userId p) merged) as Hin.
  { apply in_or_app. left. apply in_map. apply filter_In. split; [|exact Hs].
    apply byCreatedDesc_in, filter_In. split; [exact Hp|].
    now apply bool_decide_eq_true. }
  destruct (dedupeById_keeps_id [] merged _ Hin) as (inv' & Hin' & E);
    [apply not_elem_of_nil|].
  pose proof (dedupeById_in _ _ _ Hin') as [Hm _].
  apply curated_rows in Hm as (q & Hq & _ & -> & _).
  destruct (buildInvoice_fields users now userId q) as (Eq & _).
  destruct (buildInvoice_fields users now userId p) as (Ep & _).
  rewrite Eq, Ep in E.
  now rewrite (pairwise_ok_id_inj _ q p Hpw Hq Hp E) in Hin'.
Qed.

(** Row 9001 of owner 42 is pending; the list is asked for with a limit
    of no settled payment at all. *)
Lemma listInvoicesForUserCurated_lists_every_pending_row_witness :
  let users := Scenario.users42 Scenario.freeUser in
  In (buildInvoiceFromPayment users Scenario.t0 42 Scenario.attachedRow)
     (map (buildInvoiceFromPayment users Scenario.t0 42)
          [Scenario.otherRow; Scenario.attachedRow]).
Proof.
  apply (listInvoicesForUserCurated_lists_every_pending_row Scenario.ledgerTwo
           (Scenario.users42 Scenario.freeUser) Scenario.t0 42 0%nat
           (map (buildInvoiceFromPayment (Scenario.users42 Scenario.freeUser) Scenario.t0 42)
                [Scenario.otherRow; Scenario.attachedRow])
           Scenario.attachedRow).
  - split; reflexivity.
  - reflexivity.
  - simpl; auto.
  - reflexivity.
  - reflexivity.
Defined.

(** ** checkAccess and getPaymentMethodPreview *)

(** X24. The guard of checkAccess adds nothing to getAccessInfo; a caller
    without a valid id, or unknown to the user table, is denied with the
    reason, whatever the table holds. *)
Theorem checkAccess_denies_unknown_callers
    (st : Store) (users : gmap Z User) (now userId : Z) :
  checkAccess st users now userId = getAccessInfo st users now userId /\
  (userId = 0 -> checkAccess st users now userId = denied "invalid_user") /\
  (userId <> 0 -> users !! userId = None ->
   checkAccess st users now userId = denied "user_not_found").
Proof.
  unfold checkAccess, getAccessInfo. case_bool_decide as Hu.
  - repeat split; congruence.
  - split; [reflexivity|]. split; [congruence|]. now intros _ ->.
Qed.

(** Nobody has the id 7 in a table of users that holds owner 42 only. *)
Lemma checkAccess_denies_unknown_callers_witness :
  let st := Scenario.ledgerTwoOwners in
  let users := Scenario.users42 Scenario.freeUser in
  checkAccess st users Scenario.t0 7 = getAccessInfo st users Scenario.t0 7 /\
  (7 = 0 -> checkAccess st users Scenario.t0 7 = denied "invalid_user") /\
  (7 <> 0 -> users !! 7 = None ->
   checkAccess st users Scenario.t0 7 = denied "user_not_found").
Proof.
  apply (checkAccess_denies_unknown_callers Scenario.ledgerTwoOwners
           (Scenario.users42 Scenario.freeUser) Scenario.t0 7).
Defined.

(** X25. The payment method shown is PayPal with the payer email of the
    caller's most recent row, and nothing exactly when the caller has no
    row. *)
Theorem getPaymentMethodPreview_latest_own_row
    (st : Store) (userId : Z) :
  userId <> 0 ->
  (getPaymentMethodPreview st userId = Ok None <->
   forall p, In p (rows st) -> user_id p <> Some userId) /\
  (forall m, getPaymentMethodPreview st userId = Ok (Some m) ->
     exists p, In p (rows st) /\ user_id p = Some userId /\
               m = {| brand := "PayPal"; masked := payerEmail p ??! "" |} /\
               forall q, In q (rows st) -> user_id q = Some userId ->
                         createdAt q <= createdAt p).
Proof.
  intros Hu. unfold getPaymentMethodPreview, ensureValidUserId.
  rewrite (bool_decide_eq_false_2 _ Hu).
  destruct (findLatest _ st) as [p|] eqn:E; split.
  - split; [discriminate|]. intros H. apply findLatest_some in E as [Hin Hp].
    apply bool_decide_eq_true in Hp. now destruct (H p Hin).
  - intros m Hm. inversion Hm; subst m. pose proof (findLatest_some _ _ _ E) as [Hin Hp].
    apply bool_decide_eq_true in Hp. exists p. repeat split; auto.
    intros q Hq Hqu. apply (latest_newest _ p q E). apply filter_In.
    split; [exact Hq|]. now apply bool_decide_eq_true.
  - split; [|reflexivity]. intros _ p Hp.
    pose proof (findLatest_none _ _ p E Hp) as Hno. now apply bool_decide_eq_false in Hno.
  - discriminate.
Qed.

(** Owner 42 with the rows 9001 and 9002. *)
Lemma getPaymentMethodPreview_latest_own_row_witness :
  let st := Scenario.ledgerTwo in
  (getPaymentMethodPreview st 42 = Ok None <->
   forall p, In p (rows st) -> user_id p <> Some 42) /\
  (forall m, getPaymentMethodPreview st 42 = Ok (Some m) ->
     exists p, In p (rows st) /\ user_id p = Some 42 /\
               m = {| brand := "PayPal"; masked := payerEmail p ??! "" |} /\
               forall q, In q (rows st) -> user_id q = Some 42 ->
                         createdAt q <= createdAt p).
Proof.
  apply (getPaymentMethodPreview_latest_own_row Scenario.ledgerTwo 42).
  lia.
Defined.

